(** * Auto-Save Form: the debounced persistence controller of [AutoSaveForm]

    A shallow embedding of the [AutoSaveForm] component (the auto-save form
    exercise) as a state machine: the component's React state and refs, the
    browser timer queue, [localStorage] and the console, threaded through a
    small state-and-exception monad.  A user event (edit, manual save,
    clear, unmount) runs its handler and then the re-render, which re-runs
    the auto-save effect when [form] changed; a clock tick of one
    millisecond fires the timers that are due, in creation order.

    Modelling choices:
    - JavaScript values are [jsval]; numbers are integers (no value here
      depends on floating point).
    - A text held by [localStorage] is either a text [JSON.parse] accepts,
      represented by the value it denotes ([TJson]), or a text it rejects
      ([TRaw]).  [JSON.stringify v] is [TJson (json_norm v)].
    - [new Date().toISOString()] is the section variable [toISOString]
      applied to the clock.
    - React runs effects after the commit; a [setState] on an unmounted
      component is ignored; the effect bodies of a render see the values of
      that render. *)

From Stdlib Require Import String Ascii List ZArith Bool Lia.
Import ListNotations.
Open Scope Z_scope.
Open Scope string_scope.
#[local] Set Warnings "-register-all".


(** ** JavaScript values *)

Inductive jsval : Type :=
| JUndefined
| JNull
| JBool (b : bool)
| JNum (z : Z)
| JStr (s : string)
| JArr (xs : list jsval)
| JObj (fields : list (string * jsval)).

(** Truthiness, as used by [if (x)] and [!x]. *)
Definition truthy (v : jsval) : bool :=
  match v with
  | JUndefined | JNull => false
  | JBool b => b
  | JNum z => negb (Z.eqb z 0)
  | JStr s => negb (String.eqb s "")
  | JArr _ | JObj _ => true
  end.

Fixpoint lookup_field (k : string) (fs : list (string * jsval)) : jsval :=
  match fs with
  | [] => JUndefined
  | (k', v) :: r => if String.eqb k k' then v else lookup_field k r
  end.

(** The value [JSON.parse (JSON.stringify v)] for an object or array [v]:
    [undefined] fields are dropped, [undefined] array items become [null]. *)
Fixpoint json_norm (v : jsval) : jsval :=
  match v with
  | JArr xs =>
      JArr ((fix go (xs : list jsval) : list jsval :=
               match xs with
               | [] => []
               | JUndefined :: r => JNull :: go r
               | x :: r => json_norm x :: go r
               end) xs)
  | JObj fs =>
      JObj ((fix go (fs : list (string * jsval)) : list (string * jsval) :=
               match fs with
               | [] => []
               | (_, JUndefined) :: r => go r
               | (k, x) :: r => (k, json_norm x) :: go r
               end) fs)
  | _ => v
  end.

(** Texts held by [localStorage]. *)
Inductive stext : Type :=
| TJson (v : jsval)   (* a text [JSON.parse] accepts; it denotes [v] *)
| TRaw (s : string).  (* a text [JSON.parse] rejects (the empty text too) *)

(** [if (saved)] on the string returned by [getItem]. *)
Definition text_truthy (t : stext) : bool :=
  match t with
  | TJson _ => true
  | TRaw s => negb (String.eqb s "")
  end.

(** ** The component's data *)

(** The [form] state of a document: [{ title, content }]. *)
Record document : Type := mkDoc { title : string; content : string }.

Definition doc_val (d : document) : jsval :=
  JObj [("title", JStr (title d)); ("content", JStr (content d))].

Definition empty_doc : document := mkDoc "" "".

(** The auto-save effect's test [!form.title && !form.content] on a document. *)
Definition doc_empty (d : document) : bool :=
  String.eqb (title d) "" && String.eqb (content d) "".

(** The [status] state: ["idle"], ["unsaved"], ["saving"], ["saved"], ["error"]. *)
Inductive save_status : Type := Idle | Unsaved | Saving | Saved | Error.

Definition STORAGE_KEY : string := "autoSaveFormData".
Definition SAVE_DELAY : Z := 2000.
Definition STATUS_DELAY : Z := 500.
Definition LOADED_DELAY : Z := 2000.

(** Timer callbacks of the component: the auto-save timer calls the
    [saveToLocalStorage] of the render that armed it, whose [form] is
    captured; the other timers call [setStatus("saved")]. *)
Inductive callback : Type :=
| CbSave (captured_form : jsval)
| CbSetSaved.

Record timer : Type := mkTimer { t_id : nat; t_due : Z; t_cb : callback }.

Record state : Type := mkState {
  (* React state *)
  form : jsval;
  status : save_status;
  lastSaved : jsval;
  (* refs *)
  saveTimerRef : option nat;
  statusTimerRef : option nat;
  (* React bookkeeping: the last auto-save effect run returned a cleanup;
     [form] was set since the last commit; the component is mounted *)
  autosave_cleanup : bool;
  form_changed : bool;
  mounted : bool;
  (* the browser: timer queue, next timer id, clock in ms *)
  timers : list timer;
  next_id : nat;
  now : Z;
  (* localStorage, whether [setItem] throws (quota), every [setItem] call *)
  store : list (string * stext);
  quota_full : bool;
  setItem_calls : list (string * stext);
  (* console.error log *)
  errors : list string
}.

(** Field updates. *)

Definition set_form (v : jsval) (s : state) : state :=
  {| form := v; status := status s; lastSaved := lastSaved s; saveTimerRef := saveTimerRef s; statusTimerRef := statusTimerRef s; autosave_cleanup := autosave_cleanup s; form_changed := form_changed s; mounted := mounted s; timers := timers s; next_id := next_id s; now := now s; store := store s; quota_full := quota_full s; setItem_calls := setItem_calls s; errors := errors s |}.

Definition set_status (v : save_status) (s : state) : state :=
  {| form := form s; status := v; lastSaved := lastSaved s; saveTimerRef := saveTimerRef s; statusTimerRef := statusTimerRef s; autosave_cleanup := autosave_cleanup s; form_changed := form_changed s; mounted := mounted s; timers := timers s; next_id := next_id s; now := now s; store := store s; quota_full := quota_full s; setItem_calls := setItem_calls s; errors := errors s |}.

Definition set_lastSaved (v : jsval) (s : state) : state :=
  {| form := form s; status := status s; lastSaved := v; saveTimerRef := saveTimerRef s; statusTimerRef := statusTimerRef s; autosave_cleanup := autosave_cleanup s; form_changed := form_changed s; mounted := mounted s; timers := timers s; next_id := next_id s; now := now s; store := store s; quota_full := quota_full s; setItem_calls := setItem_calls s; errors := errors s |}.

Definition set_saveTimerRef (v : option nat) (s : state) : state :=
  {| form := form s; status := status s; lastSaved := lastSaved s; saveTimerRef := v; statusTimerRef := statusTimerRef s; autosave_cleanup := autosave_cleanup s; form_changed := form_changed s; mounted := mounted s; timers := timers s; next_id := next_id s; now := now s; store := store s; quota_full := quota_full s; setItem_calls := setItem_calls s; errors := errors s |}.

Definition set_statusTimerRef (v : option nat) (s : state) : state :=
  {| form := form s; status := status s; lastSaved := lastSaved s; saveTimerRef := saveTimerRef s; statusTimerRef := v; autosave_cleanup := autosave_cleanup s; form_changed := form_changed s; mounted := mounted s; timers := timers s; next_id := next_id s; now := now s; store := store s; quota_full := quota_full s; setItem_calls := setItem_calls s; errors := errors s |}.

Definition set_autosave_cleanup (v : bool) (s : state) : state :=
  {| form := form s; status := status s; lastSaved := lastSaved s; saveTimerRef := saveTimerRef s; statusTimerRef := statusTimerRef s; autosave_cleanup := v; form_changed := form_changed s; mounted := mounted s; timers := timers s; next_id := next_id s; now := now s; store := store s; quota_full := quota_full s; setItem_calls := setItem_calls s; errors := errors s |}.

Definition set_form_changed (v : bool) (s : state) : state :=
  {| form := form s; status := status s; lastSaved := lastSaved s; saveTimerRef := saveTimerRef s; statusTimerRef := statusTimerRef s; autosave_cleanup := autosave_cleanup s; form_changed := v; mounted := mounted s; timers := timers s; next_id := next_id s; now := now s; store := store s; quota_full := quota_full s; setItem_calls := setItem_calls s; errors := errors s |}.

Definition set_mounted (v : bool) (s : state) : state :=
  {| form := form s; status := status s; lastSaved := lastSaved s; saveTimerRef := saveTimerRef s; statusTimerRef := statusTimerRef s; autosave_cleanup := autosave_cleanup s; form_changed := form_changed s; mounted := v; timers := timers s; next_id := next_id s; now := now s; store := store s; quota_full := quota_full s; setItem_calls := setItem_calls s; errors := errors s |}.

Definition set_timers (v : list timer) (s : state) : state :=
  {| form := form s; status := status s; lastSaved := lastSaved s; saveTimerRef := saveTimerRef s; statusTimerRef := statusTimerRef s; autosave_cleanup := autosave_cleanup s; form_changed := form_changed s; mounted := mounted s; timers := v; next_id := next_id s; now := now s; store := store s; quota_full := quota_full s; setItem_calls := setItem_calls s; errors := errors s |}.

Definition set_next_id (v : nat) (s : state) : state :=
  {| form := form s; status := status s; lastSaved := lastSaved s; saveTimerRef := saveTimerRef s; statusTimerRef := statusTimerRef s; autosave_cleanup := autosave_cleanup s; form_changed := form_changed s; mounted := mounted s; timers := timers s; next_id := v; now := now s; store := store s; quota_full := quota_full s; setItem_calls := setItem_calls s; errors := errors s |}.

Definition set_now (v : Z) (s : state) : state :=
  {| form := form s; status := status s; lastSaved := lastSaved s; saveTimerRef := saveTimerRef s; statusTimerRef := statusTimerRef s; autosave_cleanup := autosave_cleanup s; form_changed := form_changed s; mounted := mounted s; timers := timers s; next_id := next_id s; now := v; store := store s; quota_full := quota_full s; setItem_calls := setItem_calls s; errors := errors s |}.

Definition set_store (v : list (string * stext)) (s : state) : state :=
  {| form := form s; status := status s; lastSaved := lastSaved s; saveTimerRef := saveTimerRef s; statusTimerRef := statusTimerRef s; autosave_cleanup := autosave_cleanup s; form_changed := form_changed s; mounted := mounted s; timers := timers s; next_id := next_id s; now := now s; store := v; quota_full := quota_full s; setItem_calls := setItem_calls s; errors := errors s |}.

Definition set_quota_full (v : bool) (s : state) : state :=
  {| form := form s; status := status s; lastSaved := lastSaved s; saveTimerRef := saveTimerRef s; statusTimerRef := statusTimerRef s; autosave_cleanup := autosave_cleanup s; form_changed := form_changed s; mounted := mounted s; timers := timers s; next_id := next_id s; now := now s; store := store s; quota_full := v; setItem_calls := setItem_calls s; errors := errors s |}.

Definition set_setItem_calls (v : list (string * stext)) (s : state) : state :=
  {| form := form s; status := status s; lastSaved := lastSaved s; saveTimerRef := saveTimerRef s; statusTimerRef := statusTimerRef s; autosave_cleanup := autosave_cleanup s; form_changed := form_changed s; mounted := mounted s; timers := timers s; next_id := next_id s; now := now s; store := store s; quota_full := quota_full s; setItem_calls := v; errors := errors s |}.

Definition set_errors (v : list string) (s : state) : state :=
  {| form := form s; status := status s; lastSaved := lastSaved s; saveTimerRef := saveTimerRef s; statusTimerRef := statusTimerRef s; autosave_cleanup := autosave_cleanup s; form_changed := form_changed s; mounted := mounted s; timers := timers s; next_id := next_id s; now := now s; store := store s; quota_full := quota_full s; setItem_calls := setItem_calls s; errors := v |}.

Arguments set_form v s /.
Arguments set_status v s /.
Arguments set_lastSaved v s /.
Arguments set_saveTimerRef v s /.
Arguments set_statusTimerRef v s /.
Arguments set_autosave_cleanup v s /.
Arguments set_form_changed v s /.
Arguments set_mounted v s /.
Arguments set_timers v s /.
Arguments set_next_id v s /.
Arguments set_now v s /.
Arguments set_store v s /.
Arguments set_quota_full v s /.
Arguments set_setItem_calls v s /.
Arguments set_errors v s /.

(** ** A state monad with JavaScript exceptions

    A computation ends normally with a value or throws an exception, in
    both cases with the state reached so far (side effects before a
    [throw] persist, as in JavaScript). *)

Inductive result (A : Type) : Type :=
| Ok (a : A) (s : state)
| Exn (e : string) (s : state).
Arguments Ok {A}.
Arguments Exn {A}.

Definition M (A : Type) : Type := state -> result A.

Definition ret {A} (a : A) : M A := fun s => Ok a s.

Definition bind {A B} (m : M A) (k : A -> M B) : M B :=
  fun s => match m s with
           | Ok a s' => k a s'
           | Exn e s' => Exn e s'
           end.

Notation "x <- m ;; k" := (bind m (fun x => k))
  (at level 61, m at next level, right associativity).
Notation "m ;; k" := (bind m (fun _ : unit => k))
  (at level 61, right associativity).

Definition gets {A} (f : state -> A) : M A := fun s => Ok (f s) s.
Definition modify (f : state -> state) : M unit := fun s => Ok tt (f s).
Definition throw {A} (e : string) : M A := fun s => Exn e s.

(** [try { m } catch (e) { h(e) }] *)
Definition try_catch {A} (m : M A) (h : string -> M A) : M A :=
  fun s => match m s with
           | Ok a s' => Ok a s'
           | Exn e s' => h e s'
           end.

Definition state_of {A} (r : result A) : state :=
  match r with Ok _ s => s | Exn _ s => s end.

(** ** Browser and React primitives *)

(** [setState] calls; ignored once the component is unmounted. *)
Definition setForm (v : jsval) : M unit :=
  modify (fun s => if mounted s then set_form_changed true (set_form v s) else s).
Definition setStatus (v : save_status) : M unit :=
  modify (fun s => if mounted s then set_status v s else s).
Definition setLastSaved (v : jsval) : M unit :=
  modify (fun s => if mounted s then set_lastSaved v s else s).

Definition remove_timer (i : nat) (ts : list timer) : list timer :=
  filter (fun t => negb (Nat.eqb (t_id t) i)) ts.

(** [clearTimeout(id)]; [clearTimeout(null)] does nothing. *)
Definition clearTimeout (id : option nat) : M unit :=
  modify (fun s => match id with
                   | None => s
                   | Some i => set_timers (remove_timer i (timers s)) s
                   end).

(** [setTimeout(cb, delay)] returns a fresh id. *)
Definition setTimeout (cb : callback) (delay : Z) : M nat :=
  fun s => Ok (next_id s)
              (set_next_id (S (next_id s))
                 (set_timers (timers s ++ [mkTimer (next_id s) (now s + delay) cb]) s)).

Fixpoint assoc_get (k : string) (l : list (string * stext)) : option stext :=
  match l with
  | [] => None
  | (k', v) :: r => if String.eqb k k' then Some v else assoc_get k r
  end.

Fixpoint assoc_remove (k : string) (l : list (string * stext)) : list (string * stext) :=
  match l with
  | [] => []
  | (k', v) :: r => if String.eqb k k' then assoc_remove k r else (k', v) :: assoc_remove k r
  end.

Definition assoc_set (k : string) (v : stext) (l : list (string * stext)) :=
  (k, v) :: assoc_remove k l.

(** [localStorage.getItem(k)]: [null] ([None]) when absent. *)
Definition getItem (k : string) : M (option stext) := gets (fun s => assoc_get k (store s)).

(** [localStorage.setItem(k, v)]: throws [QuotaExceededError] when the
    storage is full; every call is recorded in [setItem_calls]. *)
Definition setItem (k : string) (v : stext) : M unit :=
  fun s =>
    let s1 := set_setItem_calls (setItem_calls s ++ [(k, v)]) s in
    if quota_full s then Exn "QuotaExceededError" s1
    else Ok tt (set_store (assoc_set k v (store s1)) s1).

Definition removeItem (k : string) : M unit :=
  modify (fun s => set_store (assoc_remove k (store s)) s).

Definition console_error (msg : string) : M unit :=
  modify (fun s => set_errors (errors s ++ [msg]) s).

Definition JSON_parse (t : stext) : M jsval :=
  match t with
  | TJson v => ret v
  | TRaw _ => throw "SyntaxError"
  end.

Definition JSON_stringify (v : jsval) : stext := TJson (json_norm v).

(** Property access [v.k]: a [TypeError] on [null] and [undefined]; the
    keys read here ([form], [timestamp], [title], [content]) are own
    properties of objects only. *)
Definition get_prop (v : jsval) (k : string) : M jsval :=
  match v with
  | JUndefined | JNull => throw "TypeError"
  | JObj fs => ret (lookup_field k fs)
  | _ => ret JUndefined
  end.

(** ** The input handler and the view components

    Strings of this model are sequences of UTF-16 code units below 256,
    one [ascii] each, so [String.length] is JavaScript's [length].  The
    word count of the preview is defined on any sequence of UTF-16 code
    units, with the whole whitespace class of [\s]. *)

(** [String(n)] of a natural number: its decimal digits. *)
Fixpoint digits_aux (fuel n : nat) (acc : string) : string :=
  match fuel with
  | O => acc
  | S f =>
      let acc' := String (ascii_of_nat (48 + n mod 10)) acc in
      if Nat.ltb n 10 then acc' else digits_aux f (n / 10) acc'
  end.

Definition string_of_nat (n : nat) : string := digits_aux (S n) n "".

Definition string_of_Z (z : Z) : string :=
  if Z.ltb z 0 then String (ascii_of_nat 45) (string_of_nat (Z.to_nat (- z)))
  else string_of_nat (Z.to_nat z).

(** The own enumerable properties that [{...v}] copies, in order: the
    fields of an object, the elements of a string or an array under the
    keys "0", "1", ...; [undefined], [null], booleans and numbers have
    none. *)
Definition spread_props (v : jsval) : list (string * jsval) :=
  match v with
  | JObj fs => fs
  | JStr s =>
      map (fun p => (string_of_nat (fst p), JStr (String (snd p) EmptyString)))
          (combine (seq 0 (String.length s)) (list_ascii_of_string s))
  | JArr xs => map (fun p => (string_of_nat (fst p), snd p)) (combine (seq 0 (length xs)) xs)
  | _ => []
  end.

(** [{...fields, [k]: v}]: an existing key keeps its place, a new
    (non-index) key comes last. *)
Fixpoint set_field (k : string) (v : jsval) (fs : list (string * jsval)) :
  list (string * jsval) :=
  match fs with
  | [] => [(k, v)]
  | (k', v') :: r => if String.eqb k k' then (k', v) :: r else (k', v') :: set_field k v r
  end.

(** [setForm(updater)]: the updater receives the current [form]. *)
Definition setForm_with (f : jsval -> jsval) : M unit :=
  modify (fun s => if mounted s then set_form_changed true (set_form (f (form s)) s) else s).

(** [handleChange] for an input whose [name] and [value] are given
    ([name] is "title" or "content", the names of the two inputs). *)
Definition handleChange (name value : string) : M unit :=
  setForm_with (fun prev => JObj (set_field name (JStr value) (spread_props prev))).

(** The UTF-16 code units of a string. *)
Definition code_units (s : string) : list Z :=
  map (fun a => Z.of_nat (nat_of_ascii a)) (list_ascii_of_string s).

(** The code units [\s] matches (WhiteSpace and LineTerminator): tab, line
    feed, vertical tab, form feed, carriage return, space, no-break space,
    U+1680, U+2000 to U+200A, U+2028, U+2029, U+202F, U+205F, U+3000 and
    U+FEFF. *)
Definition is_ws (c : Z) : bool :=
  (Z.leb 9 c && Z.leb c 13) || Z.eqb c 32 || Z.eqb c 160 || Z.eqb c 5760 ||
  (Z.leb 8192 c && Z.leb c 8202) || Z.eqb c 8232 || Z.eqb c 8233 ||
  Z.eqb c 8239 || Z.eqb c 8287 || Z.eqb c 12288 || Z.eqb c 65279.

(** [s.split(/\s+/)] on the code units of [s]: the pieces between the
    maximal runs of whitespace; [cur] is the current piece, reversed, and
    [in_run] says the last unit read was whitespace. A leading or trailing
    run leaves an empty piece, and [""] splits into [[""]]. *)
Fixpoint split_ws_go (cur : list Z) (in_run : bool) (s : list Z) : list (list Z) :=
  match s with
  | [] => [rev cur]
  | c :: r =>
      if is_ws c then
        if in_run then split_ws_go cur true r else rev cur :: split_ws_go [] true r
      else split_ws_go (c :: cur) false r
  end.

Definition split_ws (s : list Z) : list (list Z) := split_ws_go [] false s.

(** [Boolean] on a string: the non-empty strings are truthy. *)
Definition nonempty {A} (l : list A) : bool := match l with [] => false | _ => true end.

(** [s.split(/\s+/).filter(Boolean).length] on the code units [s]. *)
Definition word_count (s : list Z) : nat := length (filter nonempty (split_ws s)).

(** [v.length] *)
Definition js_length (v : jsval) : M jsval :=
  match v with
  | JStr s => ret (JNum (Z.of_nat (String.length s)))
  | JArr xs => ret (JNum (Z.of_nat (length xs)))
  | _ => get_prop v "length"
  end.

(** A child of the preview: [x && <h2>...</h2>] and [x && <p>...</p>] give
    the element when [x] is truthy, else the falsy value itself. *)
Inductive node : Type :=
| H2 (v : jsval)
| Para (v : jsval)
| Text (v : jsval).

Definition and_node (v : jsval) (mk : jsval -> node) : node :=
  if truthy v then mk v else Text v.

(** What [FormPreview] renders when it renders something. *)
Record preview : Type := mkPreview {
  pv_title : node;      (* {form.title && <h2>{form.title}</h2>} *)
  pv_content : node;    (* {form.content && <p>{form.content}</p>} *)
  pv_chars : jsval;     (* Characters: {form.content.length} *)
  pv_words : nat        (* Words: {form.content.split(/\s+/).filter(Boolean).length} *)
}.

(** [c.split(/\s+/).filter(Boolean).length]: only strings have [split]. *)
Definition words_of (c : jsval) : M nat :=
  match c with
  | JStr s => ret (word_count (code_units s))
  | _ => throw "TypeError"
  end.

(** [FormPreview({ form })]; [None] is [return null]. *)
Definition FormPreview (form_ : jsval) : M (option preview) :=
  t <- get_prop form_ "title";;
  is_empty <- (if truthy t then ret false
               else (c <- get_prop form_ "content";; ret (negb (truthy c))));;
  if is_empty then ret None
  else
    (t <- get_prop form_ "title";;
     c <- get_prop form_ "content";;
     len <- js_length c;;
     words <- words_of c;;
     ret (Some (mkPreview (and_node t H2) (and_node c Para) len words))).

(** React's check of a rendered child: a plain object is not a valid
    child ("Objects are not valid as a React child"); an array is valid
    when its items are; strings, numbers, booleans, [null] and [undefined]
    are valid. *)
Fixpoint valid_child (v : jsval) : bool :=
  match v with
  | JObj _ => false
  | JArr xs => forallb valid_child xs
  | _ => true
  end.

Definition node_ok (n : node) : bool :=
  match n with
  | H2 v | Para v => valid_child v
  | Text _ => true
  end.

(** The render phase of [AutoSaveForm] with [form] = [f], and of its
    children: [value={form.title}] and [value={form.content}], then
    [FormPreview] and the children it returns. [FormStatus] reads only
    [status] and [lastSaved] and cannot throw. A throw escapes before any
    effect of the render runs. *)
Definition render (f : jsval) : M unit :=
  _ <- get_prop f "title";;
  _ <- get_prop f "content";;
  p <- FormPreview f;;
  match p with
  | None => ret tt
  | Some pv =>
      if node_ok (pv_title pv) && node_ok (pv_content pv) then ret tt
      else throw "Error"
  end.

Arguments render f : simpl never.

(** ** The component *)

Section AutoSaveForm.

(** [new Date().toISOString()] at a given clock value. *)
Variable toISOString : Z -> string.

(** [saveToLocalStorage] of the render whose [form] is [form_]. *)
Definition saveToLocalStorage (form_ : jsval) : M unit :=
  try_catch
    (setStatus Saving;;
     ts <- gets (fun s => toISOString (now s));;
     let data := JObj [("form", form_); ("timestamp", JStr ts)] in
     setItem STORAGE_KEY (JSON_stringify data);;
     setLastSaved (JStr ts);;
     r <- gets statusTimerRef;;
     clearTimeout r;;
     id <- setTimeout CbSetSaved STATUS_DELAY;;
     modify (set_statusTimerRef (Some id)))
    (fun e => console_error ("Error saving to localStorage: " ++ e);;
              setStatus Error).

(** The cleanup returned by the last run of the auto-save effect, if any:
    [() => clearTimeout(saveTimerRef.current)]. *)
Definition autosave_cleanup_run : M unit :=
  c <- gets autosave_cleanup;;
  if c then
    (r <- gets saveTimerRef;;
     clearTimeout r;;
     modify (set_autosave_cleanup false))
  else ret tt.

(** The auto-save effect's body past the emptiness test: show "unsaved",
    re-arm the debounce timer, return the cleanup. *)
Definition arm_autosave (form_ : jsval) : M unit :=
  setStatus Unsaved;;
  r <- gets saveTimerRef;;
  clearTimeout r;;
  id <- setTimeout (CbSave form_) SAVE_DELAY;;
  modify (set_saveTimerRef (Some id));;
  modify (set_autosave_cleanup true).

(** The auto-save effect ([useEffect(..., [form])]) of the render whose
    [form] is [form_], preceded by the cleanup of its previous run. *)
Definition autosave_effect (form_ : jsval) : M unit :=
  autosave_cleanup_run;;
  t <- get_prop form_ "title";;
  is_empty <- (if truthy t then ret false
               else (c <- get_prop form_ "content";; ret (negb (truthy c))));;
  if is_empty then ret tt else arm_autosave form_.

(** The load effect ([useEffect(..., [])]), run once on mount. *)
Definition load_effect : M unit :=
  try_catch
    (saved <- getItem STORAGE_KEY;;
     match saved with
     | Some txt =>
         if text_truthy txt then
           (data <- JSON_parse txt;;
            f <- get_prop data "form";;
            setForm f;;
            ts <- get_prop data "timestamp";;
            setLastSaved ts;;
            setStatus Saved;;
            _ <- setTimeout CbSetSaved LOADED_DELAY;;
            ret tt)
         else ret tt
     | None => ret tt
     end)
    (fun e => console_error ("Error loading from localStorage: " ++ e)).

(** The re-render after a state update when [form] was set: the render
    phase, then the auto-save effect of the new [form]. Whether the render
    throws depends on [form] alone, so a render after an update of the
    other state, with the same [form], ends as the previous one did and is
    left out. *)
Definition commit : M unit :=
  ch <- gets form_changed;;
  if ch then
    (modify (set_form_changed false);;
     f <- gets form;;
     render f;;
     autosave_effect f)
  else ret tt.

(** An edit from the view: [handleChange] sets [form] to the new document
    [{...prev, [name]: value}]. *)
Definition edit (d : document) : M unit := setForm (doc_val d).

(** [handleClear]; [confirmed] is the answer to [window.confirm]. *)
Definition handleClear (confirmed : bool) : M unit :=
  if confirmed then
    (setForm (doc_val empty_doc);;
     setLastSaved JNull;;
     setStatus Idle;;
     try_catch (removeItem STORAGE_KEY)
       (fun e => console_error ("Error clearing localStorage: " ++ e)))
  else ret tt.

Definition handleManualSave : M unit :=
  r <- gets saveTimerRef;;
  clearTimeout r;;
  f <- gets form;;
  saveToLocalStorage f.

Definition run_callback (cb : callback) : M unit :=
  match cb with
  | CbSave f => saveToLocalStorage f
  | CbSetSaved => setStatus Saved
  end.

(** Fire the timers whose ids are listed, in order, skipping those cleared
    in the meantime. *)
Fixpoint fire_timers (ids : list nat) : M unit :=
  match ids with
  | [] => ret tt
  | i :: r =>
      ts <- gets timers;;
      match find (fun t => Nat.eqb (t_id t) i) ts with
      | None => fire_timers r
      | Some t =>
          clearTimeout (Some i);;
          run_callback (t_cb t);;
          commit;;
          fire_timers r
      end
  end.

Definition due_ids (n : Z) (ts : list timer) : list nat :=
  map t_id (filter (fun t => Z.leb (t_due t) n) ts).

(** One millisecond passes; the timers then due fire. *)
Definition tick : M unit :=
  modify (fun s => set_now (now s + 1) s);;
  n <- gets now;;
  ts <- gets timers;;
  fire_timers (due_ids n ts).

(** Unmount: React runs the effects' cleanups. *)
Definition teardown : M unit :=
  m <- gets mounted;;
  if m then (autosave_cleanup_run;; modify (set_mounted false)) else ret tt.

Inductive event : Type :=
| Edit (d : document)
| ManualSave
| Clear (confirmed : bool)
| Tick
| Teardown
| SetQuotaFull (full : bool).   (* the storage fills up or frees space *)

Definition if_mounted (m : M unit) : M unit :=
  b <- gets mounted;; if b then m else ret tt.

Definition step (e : event) : M unit :=
  match e with
  | Edit d => if_mounted (edit d;; commit)
  | ManualSave => if_mounted (handleManualSave;; commit)
  | Clear c => if_mounted (handleClear c;; commit)
  | Tick => tick
  | Teardown => teardown
  | SetQuotaFull b => modify (set_quota_full b)
  end.

Fixpoint run (es : list event) : M unit :=
  match es with
  | [] => ret tt
  | e :: r => step e;; run r
  end.

(** The state of the first render. *)
Definition initial_state (st : list (string * stext)) (full : bool) : state :=
  {| form := doc_val empty_doc; status := Idle; lastSaved := JNull;
     saveTimerRef := None; statusTimerRef := None;
     autosave_cleanup := false; form_changed := false; mounted := true;
     timers := []; next_id := 1%nat; now := 0;
     store := st; quota_full := full; setItem_calls := []; errors := [] |}.

(** Mount: the first render (of the empty form, which does not throw),
    both effects with its values, then the re-render caused by the load. *)
Definition mount (st : list (string * stext)) (full : bool) : result unit :=
  (f0 <- gets form;;
   load_effect;;
   autosave_effect f0;;
   commit) (initial_state st full).

Inductive reachable : state -> Prop :=
| reach_mount st full s : mount st full = Ok tt s -> reachable s
| reach_step s e s' : reachable s -> step e s = Ok tt s' -> reachable s'.

End AutoSaveForm.

Section FormStatus.

(** [new Date(timestamp)] as a time in milliseconds, [None] for an invalid
    date; [new Date()] at render; [toLocaleString] of a valid date. *)
Variable Date_of : jsval -> option Z.
Variable Date_now : Z.
Variable toLocaleString : Z -> string.

(** [formatTimestamp] of [FormStatus]; [None] is [return null]. For an
    invalid date the difference is [NaN], every comparison fails, and
    [toLocaleString] gives "Invalid Date". [Math.floor(diffMs / 60000)] is
    the floor division of the integer [diffMs]. *)
Definition formatTimestamp (timestamp : jsval) : option string :=
  if negb (truthy timestamp) then None
  else
    match Date_of timestamp with
    | None => Some "Invalid Date"
    | Some date =>
        let diffMins := Z.div (Date_now - date) 60000 in
        if Z.ltb diffMins 1 then Some "just now"
        else if Z.eqb diffMins 1 then Some "1 minute ago"
        else if Z.ltb diffMins 60 then Some (string_of_Z diffMins ++ " minutes ago")
        else Some (toLocaleString date)
    end.

End FormStatus.

(** * Proofs *)

(** ** Predicates preserved by computations

    [preserves P m]: from a state satisfying [P], [m] ends (normally or by
    an exception) in a state satisfying [P]. *)

Definition preserves {A} (P : state -> Prop) (m : M A) : Prop :=
  forall s, P s -> P (state_of (m s)).

Lemma pres_ret {A} P (a : A) : preserves P (ret a).
Proof. intros s H. exact H. Qed.

Lemma pres_gets {A} P (f : state -> A) : preserves P (gets f).
Proof. intros s H. exact H. Qed.

Lemma pres_throw {A} P e : preserves P (@throw A e).
Proof. intros s H. exact H. Qed.

Lemma pres_bind {A B} P (m : M A) (k : A -> M B) :
  preserves P m -> (forall a, preserves P (k a)) -> preserves P (bind m k).
Proof.
  intros Hm Hk s Hs. unfold bind.
  specialize (Hm s Hs). destruct (m s) as [a s'|e s']; simpl in *; auto.
  apply Hk; exact Hm.
Qed.

Lemma pres_try_catch {A} P (m : M A) (h : string -> M A) :
  preserves P m -> (forall e, preserves P (h e)) -> preserves P (try_catch m h).
Proof.
  intros Hm Hh s Hs. unfold try_catch.
  specialize (Hm s Hs). destruct (m s) as [a s'|e s']; simpl in *; auto.
  apply Hh; exact Hm.
Qed.

Lemma pres_if {A} P (b : bool) (m1 m2 : M A) :
  preserves P m1 -> preserves P m2 -> preserves P (if b then m1 else m2).
Proof. destruct b; auto. Qed.

Lemma pres_get_prop P v k : preserves P (get_prop v k).
Proof. destruct v; intros st H; exact H. Qed.

Lemma pres_JSON_parse P t : preserves P (JSON_parse t).
Proof. destruct t; intros st H; exact H. Qed.

Lemma pres_getItem P k : preserves P (getItem k).
Proof. apply pres_gets. Qed.

Lemma pres_apply {A} P (m : M A) s : preserves P m -> P s -> P (state_of (m s)).
Proof. intros H. apply H. Qed.

Create HintDb pres.
#[export] Hint Resolve pres_ret pres_gets pres_throw pres_get_prop pres_JSON_parse
  pres_getItem : pres.

(** Walks a computation built from [bind], [try_catch], [if] and [match],
    leaving the primitives to the hint database. *)
Ltac pres_step :=
  match goal with
  | |- preserves _ (bind _ _) => apply pres_bind; [ | intro ]
  | |- preserves _ (try_catch _ _) => apply pres_try_catch; [ | intro ]
  | |- preserves _ (if _ then _ else _) => apply pres_if
  | |- preserves _ (match ?o with Some _ => _ | None => _ end) => destruct o
  | |- preserves _ (match ?o with (_, _) => _ end) => destruct o
  | |- preserves _ (let _ := _ in _) => cbv zeta
  end.
Ltac pres_auto := repeat first [ pres_step | solve [ eauto with pres ] ].

Lemma pres_js_length P v : preserves P (js_length v).
Proof. destruct v; intros st H; exact H. Qed.

Lemma pres_words_of P v : preserves P (words_of v).
Proof. destruct v; intros st H; exact H. Qed.

#[export] Hint Resolve pres_js_length pres_words_of : pres.

Lemma pres_render P f : preserves P (render f).
Proof. unfold render, FormPreview. pres_auto. Qed.

#[export] Hint Resolve pres_render : pres.

Lemma pres_modify P f : (forall s, P s -> P (f s)) -> preserves P (modify f).
Proof. intros Hf s Hs. exact (Hf s Hs). Qed.

(** A [modify] whose predicate holds by computation, after splitting on the
    [mounted] test of the [setState] calls. *)
Ltac pres_modify_conv :=
  apply pres_modify;
  let s := fresh "s" in let H := fresh "H" in
  intros s H;
  repeat match goal with
         | |- context [if ?b then _ else _] => destruct b
         | |- context [match ?o with Some _ => _ | None => _ end] => destruct o
         end;
  exact H.

#[export] Hint Extern 2 (preserves _ (modify _)) => pres_modify_conv : pres.
#[export] Hint Extern 2 (preserves _ (setForm _)) => unfold setForm; pres_modify_conv : pres.
#[export] Hint Extern 2 (preserves _ (setStatus _)) => unfold setStatus; pres_modify_conv : pres.
#[export] Hint Extern 2 (preserves _ (setLastSaved _)) => unfold setLastSaved; pres_modify_conv : pres.
#[export] Hint Extern 2 (preserves _ (removeItem _)) => unfold removeItem; pres_modify_conv : pres.
#[export] Hint Extern 2 (preserves _ (console_error _)) => unfold console_error; pres_modify_conv : pres.
#[export] Hint Extern 3 (preserves _ (clearTimeout _)) => unfold clearTimeout; pres_modify_conv : pres.
#[export] Hint Extern 3 (preserves _ (setTimeout _ _)) =>
  let s := fresh "s" in let H := fresh "H" in intros s H; exact H : pres.

(** A [setItem] changes the store and the call log only. *)
Lemma pres_setItem P k v :
  (forall s, P s -> P (set_setItem_calls (setItem_calls s ++ [(k, v)]) s)) ->
  (forall s, P s -> P (set_store (assoc_set k v (store s)) s)) ->
  preserves P (setItem k v).
Proof.
  intros H1 H2 s Hs. unfold setItem.
  destruct (quota_full s); cbn [state_of].
  - exact (H1 s Hs).
  - exact (H2 _ (H1 s Hs)).
Qed.

#[export] Hint Extern 2 (preserves _ (setItem _ _)) =>
  apply pres_setItem; let s := fresh "s" in let H := fresh "H" in intros s H; exact H : pres.

(** ** Timers *)

Definition is_save (t : timer) : bool :=
  match t_cb t with CbSave _ => true | CbSetSaved => false end.

(** Timer ids are below [next_id] and distinct. *)
Definition WF (s : state) : Prop :=
  (forall t, In t (timers s) -> (t_id t < next_id s)%nat) /\ NoDup (map t_id (timers s)).

(** Every pending auto-save timer is the one [saveTimerRef] holds, and the
    auto-save effect's cleanup is registered. *)
Definition SaveRef (s : state) : Prop :=
  forall t, In t (timers s) -> is_save t = true ->
            saveTimerRef s = Some (t_id t) /\ autosave_cleanup s = true.

(** No auto-save timer is pending. *)
Definition NoSave (s : state) : Prop :=
  forall t, In t (timers s) -> is_save t = false.

Lemma in_remove_timer i t ts : In t (remove_timer i ts) <-> In t ts /\ t_id t <> i.
Proof.
  unfold remove_timer. rewrite filter_In.
  split; intros [H1 H2]; split; auto.
  - intro E. subst. rewrite Nat.eqb_refl in H2. discriminate.
  - apply negb_true_iff, Nat.eqb_neq. exact H2.
Qed.

Lemma nodup_map_filter (f : timer -> nat) p l :
  NoDup (map f l) -> NoDup (map f (filter p l)).
Proof.
  induction l as [|a l IH]; simpl; intros H; [constructor|].
  inversion H as [|x y Hnin Hnd]; subst.
  destruct (p a); simpl; auto.
  constructor; auto.
  intro Hin. apply Hnin.
  apply in_map_iff in Hin as [x [Hx Hin]]. apply filter_In in Hin as [Hin _].
  rewrite <- Hx. apply in_map. exact Hin.
Qed.

Lemma nodup_map_inj (f : timer -> nat) l x y :
  NoDup (map f l) -> In x l -> In y l -> f x = f y -> x = y.
Proof.
  induction l as [|a l IH]; simpl; intros H Hx Hy E; [contradiction|].
  inversion H as [|u v Hnin Hnd]; subst.
  destruct Hx as [<-|Hx], Hy as [<-|Hy]; auto.
  - exfalso. apply Hnin. rewrite E. apply in_map. exact Hy.
  - exfalso. apply Hnin. rewrite <- E. apply in_map. exact Hx.
Qed.

Lemma WF_clearTimeout id : preserves WF (clearTimeout id).
Proof.
  intros s [Hf Hn]. unfold clearTimeout, modify. destruct id as [i|]; simpl; [|split; auto].
  split.
  - intros t Ht. apply in_remove_timer in Ht as [Ht _]. apply Hf, Ht.
  - apply nodup_map_filter, Hn.
Qed.

Lemma WF_setTimeout cb d : preserves WF (setTimeout cb d).
Proof.
  intros s [Hf Hn]. unfold setTimeout, WF. cbn. split.
  - intros t Ht. apply in_app_or in Ht as [Ht|[<-|[]]]; simpl.
    + specialize (Hf t Ht). lia.
    + lia.
  - rewrite map_app. simpl. apply NoDup_app; auto.
    + repeat constructor. simpl. tauto.
    + intros x Hx Hy. simpl in Hy. destruct Hy as [<-|[]].
      apply in_map_iff in Hx as [t [Ht Hin]]. specialize (Hf t Hin). lia.
Qed.

Lemma SaveRef_clearTimeout id : preserves SaveRef (clearTimeout id).
Proof.
  intros s H. unfold clearTimeout, modify. destruct id as [i|]; simpl; [|exact H].
  intros t Ht. apply in_remove_timer in Ht as [Ht _]. apply H, Ht.
Qed.

Lemma SaveRef_setTimeout_status d : preserves SaveRef (setTimeout CbSetSaved d).
Proof.
  intros s H. unfold setTimeout. cbn.
  intros t Ht. apply in_app_or in Ht as [Ht|[<-|[]]]; [apply H, Ht|].
  discriminate.
Qed.

#[export] Hint Resolve WF_clearTimeout WF_setTimeout SaveRef_clearTimeout
  SaveRef_setTimeout_status : pres.

Section Proofs.

Variable iso : Z -> string.

(** *** Well-formed timer queue *)

Lemma WF_saveToLocalStorage f : preserves WF (saveToLocalStorage iso f).
Proof. unfold saveToLocalStorage. pres_auto. Qed.

Lemma WF_autosave_cleanup_run : preserves WF autosave_cleanup_run.
Proof. unfold autosave_cleanup_run. pres_auto. Qed.

Lemma WF_autosave_effect f : preserves WF (autosave_effect f).
Proof. unfold autosave_effect, arm_autosave. pres_auto; apply WF_autosave_cleanup_run. Qed.

#[local] Hint Resolve WF_saveToLocalStorage WF_autosave_cleanup_run WF_autosave_effect : pres.

Lemma WF_load_effect : preserves WF load_effect.
Proof. unfold load_effect. pres_auto. Qed.

Lemma WF_commit : preserves WF commit.
Proof. unfold commit. pres_auto. Qed.

#[local] Hint Resolve WF_load_effect WF_commit : pres.

Lemma WF_fire_timers ids : preserves WF (fire_timers iso ids).
Proof.
  induction ids as [|i r IH]; simpl; pres_auto.
  destruct (t_cb _); simpl; pres_auto.
Qed.

#[local] Hint Resolve WF_fire_timers : pres.

Lemma WF_step e : preserves WF (step iso e).
Proof.
  destruct e; unfold step, if_mounted, edit, handleManualSave, handleClear, tick, teardown;
    pres_auto.
Qed.

Lemma WF_mount st full s : mount st full = Ok tt s -> WF s.
Proof.
  intros E. change s with (state_of (Ok tt s)). rewrite <- E. unfold mount.
  apply pres_apply; [pres_auto|]. split; simpl; [intros t []|constructor].
Qed.

(** *** Pending auto-save timers *)

Definition hoare {A} (P : state -> Prop) (m : M A) (Q : state -> Prop) : Prop :=
  forall s, P s -> Q (state_of (m s)).

Lemma hoare_bind {A B} P R Q (m : M A) (k : A -> M B) :
  hoare P m R -> (forall s, R s -> Q s) -> (forall a, hoare R (k a) Q) ->
  hoare P (bind m k) Q.
Proof.
  intros Hm HRQ Hk s Hs. unfold bind.
  specialize (Hm s Hs). destruct (m s) as [a s'|e s']; simpl in *; auto.
  apply Hk, Hm.
Qed.

Lemma NoSave_SaveRef s : NoSave s -> SaveRef s.
Proof. intros H t Ht Hs. rewrite (H t Ht) in Hs. discriminate. Qed.

Lemma cleanup_NoSave : hoare SaveRef autosave_cleanup_run NoSave.
Proof.
  intros s H. unfold autosave_cleanup_run, bind, gets, ret.
  destruct (autosave_cleanup s) eqn:C; cbn.
  - intros t Ht. destruct (is_save t) eqn:St; auto.
    destruct (H t) as [R _]; [|exact St|].
    + destruct (saveTimerRef s); cbn in Ht; [apply in_remove_timer in Ht as [Ht _]|]; exact Ht.
    + rewrite R in Ht. cbn in Ht. apply in_remove_timer in Ht as [_ Ht]. congruence.
  - intros t Ht. destruct (is_save t) eqn:St; auto.
    destruct (H t Ht St) as [_ C']. congruence.
Qed.

Lemma arm_SaveRef f : hoare NoSave (arm_autosave f) SaveRef.
Proof.
  intros s H. unfold arm_autosave, bind, gets, modify, setStatus, clearTimeout, setTimeout.
  cbn. intros t Ht Hs.
  destruct (mounted s), (saveTimerRef s) as [i|]; cbn in *;
    (apply in_app_or in Ht as [Ht|[<-|[]]];
     [ try apply in_remove_timer in Ht as [Ht _]; rewrite (H t Ht) in Hs; discriminate
     | split; reflexivity ]).
Qed.

Lemma SaveRef_autosave_cleanup_run : preserves SaveRef autosave_cleanup_run.
Proof. intros s H. apply NoSave_SaveRef, cleanup_NoSave, H. Qed.

Lemma SaveRef_autosave_effect f : preserves SaveRef (autosave_effect f).
Proof.
  unfold autosave_effect.
  apply (hoare_bind _ NoSave); [apply cleanup_NoSave | apply NoSave_SaveRef | intros _].
  apply (hoare_bind _ NoSave); [apply pres_get_prop | apply NoSave_SaveRef | intros t].
  apply (hoare_bind _ NoSave); [ | apply NoSave_SaveRef | intros e].
  - change (preserves NoSave (if truthy t then ret false
              else (c <- get_prop f "content";; ret (negb (truthy c))))). pres_auto.
  - destruct e; [intros s H; apply NoSave_SaveRef, H | apply arm_SaveRef].
Qed.

#[local] Hint Resolve SaveRef_autosave_cleanup_run SaveRef_autosave_effect : pres.

Lemma SaveRef_saveToLocalStorage f : preserves SaveRef (saveToLocalStorage iso f).
Proof. unfold saveToLocalStorage. pres_auto. Qed.

#[local] Hint Resolve SaveRef_saveToLocalStorage : pres.

Lemma SaveRef_load_effect : preserves SaveRef load_effect.
Proof. unfold load_effect. pres_auto. Qed.

Lemma SaveRef_commit : preserves SaveRef commit.
Proof. unfold commit. pres_auto. Qed.

#[local] Hint Resolve SaveRef_load_effect SaveRef_commit : pres.

Lemma SaveRef_fire_timers ids : preserves SaveRef (fire_timers iso ids).
Proof.
  induction ids as [|i r IH]; simpl; pres_auto.
  destruct (t_cb _); simpl; pres_auto.
Qed.

#[local] Hint Resolve SaveRef_fire_timers : pres.

Lemma SaveRef_step e : preserves SaveRef (step iso e).
Proof.
  destruct e; unfold step, if_mounted, edit, handleManualSave, handleClear, tick, teardown;
    pres_auto.
Qed.

Lemma SaveRef_mount st full s : mount st full = Ok tt s -> SaveRef s.
Proof.
  intros E. change s with (state_of (Ok tt s)). rewrite <- E. unfold mount.
  apply pres_apply; [pres_auto|]. intros t [].
Qed.

(** *** Effects run to completion between events *)

Definition FC (s : state) : Prop := form_changed s = false.

Lemma pres_ok {A} P (m : M A) s a s' : preserves P m -> P s -> m s = Ok a s' -> P s'.
Proof. intros Hm Hs E. specialize (Hm s Hs). rewrite E in Hm. exact Hm. Qed.

Lemma FC_autosave_effect f : preserves FC (autosave_effect f).
Proof. unfold autosave_effect, autosave_cleanup_run, arm_autosave. pres_auto. Qed.

Lemma commit_FC s : FC (state_of (commit s)).
Proof.
  unfold commit, bind, gets, modify, ret. destruct (form_changed s) eqn:E; [|exact E].
  pose proof (pres_render FC (form (set_form_changed false s)) (set_form_changed false s)
                eq_refl) as H.
  destruct (render _ _) as [a s'|e s']; cbn in *; [apply FC_autosave_effect, H|exact H].
Qed.

Lemma FC_commit : preserves FC commit.
Proof. intros s _. apply commit_FC. Qed.

Lemma ok_commit_FC (m : M unit) s s' : (m;; commit) s = Ok tt s' -> FC s'.
Proof.
  unfold bind at 1. destruct (m s) as [a s1|e s1]; intros E; [|discriminate].
  pose proof (commit_FC s1) as H. rewrite E in H. exact H.
Qed.

#[local] Hint Resolve FC_autosave_effect FC_commit : pres.

Lemma FC_saveToLocalStorage f : preserves FC (saveToLocalStorage iso f).
Proof. unfold saveToLocalStorage. pres_auto. Qed.

#[local] Hint Resolve FC_saveToLocalStorage : pres.

Lemma FC_fire_timers ids : preserves FC (fire_timers iso ids).
Proof.
  induction ids as [|i r IH]; simpl; pres_auto.
  destruct (t_cb _); simpl; pres_auto.
Qed.

#[local] Hint Resolve FC_fire_timers : pres.

Lemma FC_step e s s' : step iso e s = Ok tt s' -> FC s -> FC s'.
Proof.
  intros E Hs.
  destruct e; unfold step in E;
    try (unfold if_mounted, bind at 1, gets in E;
         destruct (mounted s); [apply ok_commit_FC in E; exact E
                               | unfold ret in E; injection E as <-; exact Hs]).
  - apply (pres_ok FC (tick iso) s tt); auto. unfold tick. pres_auto.
  - apply (pres_ok FC teardown s tt); auto. unfold teardown, autosave_cleanup_run. pres_auto.
  - unfold modify in E. injection E as <-. exact Hs.
Qed.

(** *** The invariant of reachable states *)

Definition Inv (s : state) : Prop := WF s /\ SaveRef s /\ FC s.

Lemma reachable_Inv s : reachable iso s -> Inv s.
Proof.
  induction 1 as [st full s E|s e s' R IH E].
  - split; [eapply WF_mount; eauto|split; [eapply SaveRef_mount; eauto|]].
    unfold mount, bind at 1, gets in E. unfold bind at 1 in E.
    destruct (load_effect _) as [a s1|e s1]; [|discriminate].
    apply ok_commit_FC in E. exact E.
  - destruct IH as (Hw & Hr & Hf). split; [|split].
    + eapply pres_ok; [apply WF_step|exact Hw|exact E].
    + eapply pres_ok; [apply SaveRef_step|exact Hr|exact E].
    + eapply FC_step; eauto.
Qed.

(** *** Unfolding lemmas *)

Lemma cleanup_run_eq s :
  autosave_cleanup_run s =
  Ok tt (if autosave_cleanup s then
           set_autosave_cleanup false
             (match saveTimerRef s with
              | Some i => set_timers (remove_timer i (timers s)) s
              | None => s end)
         else s).
Proof.
  unfold autosave_cleanup_run, bind, gets, clearTimeout, modify, ret.
  destruct (autosave_cleanup s), (saveTimerRef s); reflexivity.
Qed.

Lemma commit_settled s : FC s -> commit s = Ok tt s.
Proof. unfold FC, commit, bind, gets, ret. intros ->. reflexivity. Qed.

(** The render of a document form does not throw. *)
Lemma render_doc d s : render (doc_val d) s = Ok tt s.
Proof.
  destruct d as [ti co].
  unfold render, FormPreview, doc_val, bind, get_prop, js_length, words_of, ret,
    and_node, node_ok, truthy. cbn.
  destruct (String.eqb ti "") eqn:Et, (String.eqb co "") eqn:Ec; cbn; rewrite ?Et, ?Ec;
    reflexivity.
Qed.

Lemma render_title_content ti co s :
  render (JObj [("title", JStr ti); ("content", JStr co)]) s = Ok tt s.
Proof. exact (render_doc (mkDoc ti co) s). Qed.

Lemma step_edit_eq d s : mounted s = true ->
  step iso (Edit d) s =
  autosave_effect (doc_val d)
    (set_form_changed false (set_form_changed true (set_form (doc_val d) s))).
Proof.
  intros Hm. unfold step, if_mounted, edit, setForm, commit, bind, gets, modify.
  cbv beta. rewrite Hm. cbv beta iota. rewrite Hm.
  change (form_changed (set_form_changed true (set_form (doc_val d) s))) with true.
  cbv beta iota.
  change (form (set_form_changed false (set_form_changed true (set_form (doc_val d) s))))
    with (doc_val d).
  rewrite render_doc. reflexivity.
Qed.

(** The emptiness test of the auto-save effect on a document. *)
Lemma autosave_effect_doc d s s1 :
  autosave_cleanup_run s = Ok tt s1 ->
  autosave_effect (doc_val d) s =
  if doc_empty d then Ok tt s1 else arm_autosave (doc_val d) s1.
Proof.
  intros E. unfold autosave_effect. unfold bind at 1. rewrite E.
  destruct d as [ti co]. unfold doc_empty, bind, get_prop, ret; cbn.
  destruct (String.eqb ti ""), (String.eqb co ""); reflexivity.
Qed.

Lemma cleanup_run_ok s : exists s1, autosave_cleanup_run s = Ok tt s1.
Proof. rewrite cleanup_run_eq. eexists. reflexivity. Qed.

Lemma cleanup_run_timers s :
  SaveRef s -> NoSave (state_of (autosave_cleanup_run s)).
Proof. intros H. apply cleanup_NoSave, H. Qed.

(** ** C9: an empty edit arms no timer and keeps the status *)

(** C9: for every current state, an edit with an empty document (both
    fields the empty string, the auto-save effect's [!form.title &&
    !form.content]) creates no timer (no [setTimeout]: [next_id] unchanged
    and no timer added) and leaves [status] as it was. *)
Theorem edit_empty_keeps_status d s :
  doc_empty d = true ->
  exists s', step iso (Edit d) s = Ok tt s' /\
             status s' = status s /\
             next_id s' = next_id s /\
             (forall t, In t (timers s') -> In t (timers s)).
Proof.
  intros Hd. destruct (mounted s) eqn:Hm.
  - rewrite (step_edit_eq d s Hm).
    destruct (cleanup_run_ok (set_form_changed false (set_form_changed true (set_form (doc_val d) s))))
      as [s1 E].
    rewrite (autosave_effect_doc _ _ _ E), Hd. exists s1. split; [reflexivity|].
    rewrite cleanup_run_eq in E. injection E as <-.
    destruct (autosave_cleanup s), (saveTimerRef s) as [i|]; cbn;
      repeat split; auto; intros t Ht; try apply in_remove_timer in Ht; tauto.
  - exists s. unfold step, if_mounted, bind, gets, ret. rewrite Hm.
    repeat split; auto.
Qed.

(** ** C10: a declined clear changes nothing *)

(** C10: in every reachable state, [handleClear] with [window.confirm]
    answered "no" leaves the whole state (form, status, lastSaved, timers,
    refs, storage) unchanged. *)
Theorem clear_declined_noop s :
  reachable iso s -> step iso (Clear false) s = Ok tt s.
Proof.
  intros R. destruct (reachable_Inv s R) as (_ & _ & F). unfold FC in F.
  unfold step, if_mounted, handleClear, commit, bind, gets, ret.
  destruct (mounted s); [rewrite F|]; reflexivity.
Qed.

(** ** C6: a failed write *)

(** C6: when [setItem] throws (storage full), [saveToLocalStorage] ends
    normally (the exception is caught) with status "error", [lastSaved] and
    the stored entry unchanged, and no timer armed (no retry); a manual save
    then also ends normally with status "error", and leaves no auto-save
    timer pending. *)
Theorem save_failure_sets_error s :
  reachable iso s -> mounted s = true -> quota_full s = true ->
  (forall f, exists s',
      saveToLocalStorage iso f s = Ok tt s' /\
      status s' = Error /\ lastSaved s' = lastSaved s /\ store s' = store s /\
      timers s' = timers s /\ next_id s' = next_id s) /\
  (exists s',
      step iso ManualSave s = Ok tt s' /\
      status s' = Error /\ lastSaved s' = lastSaved s /\ store s' = store s /\
      next_id s' = next_id s /\ NoSave s').
Proof.
  intros R Hm Hq. destruct (reachable_Inv s R) as (_ & Hr & F).
  unfold FC, SaveRef in *.
  destruct s as [fo st ls sr str ac fc mo ts ni nw sto qf calls errs]; cbn in *.
  subst mo qf fc. split.
  - intros f. eexists. split; [reflexivity|]. cbn. repeat split.
  - unfold step, if_mounted, handleManualSave, commit, saveToLocalStorage, try_catch,
      bind, gets, clearTimeout, modify, setStatus, setItem, console_error, ret.
    destruct sr as [i|]; cbn; (eexists; split; [reflexivity|]); cbn; repeat split.
    + intros t Ht. apply in_remove_timer in Ht as [Ht Hne].
      destruct (is_save t) eqn:S; auto. destruct (Hr t Ht S) as [E _]. congruence.
    + intros t Ht. destruct (is_save t) eqn:S; auto. destruct (Hr t Ht S) as [E _]. discriminate.
Qed.

(** ** Loading on mount *)

Definition loaded_text (st : list (string * stext)) : bool :=
  match assoc_get STORAGE_KEY st with Some t => text_truthy t | None => false end.

(** Mounting over an absent, empty, unparsable or [null] entry. *)
Lemma load_unusable_mount st full :
  (assoc_get STORAGE_KEY st = None \/
   (exists r, assoc_get STORAGE_KEY st = Some (TRaw r)) \/
   assoc_get STORAGE_KEY st = Some (TJson JNull)) ->
  exists s, mount st full = Ok tt s /\
            form s = doc_val empty_doc /\ lastSaved s = JNull /\ status s = Idle /\
            timers s = [] /\ setItem_calls s = [] /\
            length (errors s) = (if loaded_text st then 1 else 0)%nat.
Proof.
  unfold loaded_text. intros [H|[[r H]|H]];
    unfold mount, load_effect, getItem, try_catch, bind, gets, ret; cbn; rewrite H.
  - eexists. split; [reflexivity|]. repeat split.
  - cbn. destruct (String.eqb r "");
      (eexists; split; [reflexivity|]); repeat split.
  - eexists. split; [reflexivity|]. repeat split.
Qed.

(** The load effect over any other stored JSON value [v]: [data.form] and
    [data.timestamp] are adopted as they are. *)
Lemma load_adopts st full v f ts :
  assoc_get STORAGE_KEY st = Some (TJson v) ->
  get_prop v "form" = ret f -> get_prop v "timestamp" = ret ts ->
  exists s1, load_effect (initial_state st full) = Ok tt s1 /\
             form s1 = f /\ lastSaved s1 = ts /\ status s1 = Saved /\ errors s1 = [] /\
             timers s1 = [mkTimer 1 LOADED_DELAY CbSetSaved] /\ setItem_calls s1 = [] /\
             form_changed s1 = true /\ autosave_cleanup s1 = false /\ mounted s1 = true.
Proof.
  intros Hg Hf Hts.
  unfold load_effect, try_catch, bind, getItem, gets, JSON_parse. cbn. rewrite Hg. cbn.
  rewrite Hf. unfold ret at 1. cbn. rewrite Hts. unfold ret. cbn.
  eexists. split; [reflexivity|]. cbn. repeat split.
Qed.

(** C7 (amended): when the stored entry is absent, the empty text, a text
    [JSON.parse] rejects, or the JSON [null], mounting ends normally with
    the empty form, no timestamp ([null]), status "idle", no timer and no
    write; the failure of a present, non-empty entry is caught and logged
    once. Any other stored JSON value [v] is adopted without a shape check:
    the load sets [form] to [v.form] and [lastSaved] to [v.timestamp] as
    they are ([undefined] when missing) and the status to "saved", logging
    nothing; when [v.form] is [undefined] or [null] the re-render throws a
    [TypeError] reading [form.title] and mounting fails, with no auto-save
    timer and no write. *)
Theorem load_stored_entry st full :
  ((assoc_get STORAGE_KEY st = None \/
    (exists r, assoc_get STORAGE_KEY st = Some (TRaw r)) \/
    assoc_get STORAGE_KEY st = Some (TJson JNull)) ->
   exists s, mount st full = Ok tt s /\
             form s = doc_val empty_doc /\ lastSaved s = JNull /\ status s = Idle /\
             timers s = [] /\ setItem_calls s = [] /\
             length (errors s) = (if loaded_text st then 1 else 0)%nat) /\
  (forall v f ts,
     assoc_get STORAGE_KEY st = Some (TJson v) ->
     get_prop v "form" = ret f -> get_prop v "timestamp" = ret ts ->
     (exists s1, load_effect (initial_state st full) = Ok tt s1 /\
                 form s1 = f /\ lastSaved s1 = ts /\ status s1 = Saved /\ errors s1 = [] /\
                 setItem_calls s1 = []) /\
     ((f = JUndefined \/ f = JNull) ->
      exists s, mount st full = Exn "TypeError" s /\
                form s = f /\ status s = Saved /\
                filter is_save (timers s) = [] /\ setItem_calls s = [])).
Proof.
  split; [apply load_unusable_mount|].
  intros v f ts Hg Hf Hts.
  destruct (load_adopts st full v f ts Hg Hf Hts)
    as (s1 & E & Fo & L & St & Er & T & C & Fc & Ac & Mo).
  split; [exists s1; repeat split; assumption|].
  intros Hu. exists (set_form_changed false s1).
  assert (Mt : mount st full = (autosave_effect (doc_val empty_doc);; commit) s1).
  { unfold mount, bind at 1, gets. cbv beta iota. unfold bind at 1. rewrite E. reflexivity. }
  rewrite Mt. unfold bind at 1.
  rewrite (autosave_effect_doc empty_doc s1 s1) by (rewrite cleanup_run_eq, Ac; reflexivity).
  change (doc_empty empty_doc) with true. cbv beta iota.
  unfold commit, bind, gets, modify. rewrite Fc. cbv beta iota.
  change (form (set_form_changed false s1)) with (form s1). rewrite Fo.
  split; [destruct Hu as [->| ->]; reflexivity|].
  cbn. rewrite T. repeat split; assumption.
Qed.

(** Mounting over the record [saveToLocalStorage] writes for a non-empty
    document: the load adopts the document and the timestamp, then the
    auto-save effect of the re-render sets "unsaved" and arms a save. *)
Lemma mount_saved_record d ts st full :
  doc_empty d = false ->
  exists s, mount (assoc_set STORAGE_KEY
                     (JSON_stringify (JObj [("form", doc_val d); ("timestamp", JStr ts)])) st)
                  full = Ok tt s /\
            form s = doc_val d /\ lastSaved s = JStr ts /\ status s = Unsaved /\
            (exists t, In t (timers s) /\ t_cb t = CbSave (doc_val d)).
Proof.
  destruct d as [ti co]. unfold doc_empty. cbn. intros Hd.
  unfold mount, load_effect, getItem, try_catch, bind, gets, ret; cbn.
  destruct (String.eqb ti "") eqn:Et, (String.eqb co "") eqn:Ec; try discriminate; cbn;
    repeat progress (cbn; rewrite ?render_title_content, ?Et, ?Ec);
    (eexists; split; [reflexivity|]); cbn;
    (repeat split; [eexists; split; [right; left; reflexivity|reflexivity]]).
Qed.

(** C8 (code evaluated): a manual save of a non-empty document succeeds
    (status "saving", [lastSaved] the save time); mounting again over the
    storage it leaves reads back the same document and the same timestamp,
    but the mount ends in status "unsaved", not "saved": the load's
    [setStatus("saved")] is overridden by the auto-save effect that the
    loaded [form] re-runs. *)
Theorem reload_after_save s d :
  reachable iso s -> mounted s = true -> quota_full s = false ->
  form s = doc_val d -> doc_empty d = false ->
  exists s1, step iso ManualSave s = Ok tt s1 /\
             lastSaved s1 = JStr (iso (now s)) /\ status s1 = Saving /\
             exists s2, mount (store s1) (quota_full s1) = Ok tt s2 /\
                        form s2 = doc_val d /\ lastSaved s2 = lastSaved s1 /\
                        status s2 = Unsaved.
Proof.
  intros R Hm Hq Hf Hd. destruct (reachable_Inv s R) as (_ & _ & F).
  unfold FC in F.
  destruct (mount_saved_record d (iso (now s)) (store s) false Hd)
    as (s2 & E2 & F2 & L2 & S2 & _).
  destruct s as [fo st ls sr str ac fc mo ts ni nw sto qf calls errs]; cbn in *.
  subst mo qf fc fo.
  unfold step, if_mounted, handleManualSave, commit, saveToLocalStorage, try_catch,
    bind, gets, clearTimeout, setTimeout, modify, setStatus, setLastSaved, setItem, ret.
  destruct sr as [i|], str as [j|]; cbn;
    (eexists; split; [reflexivity|]); cbn; (split; [reflexivity|]); (split; [reflexivity|]);
    exists s2; (split; [exact E2|]); auto.
Qed.

(** ** After unmount *)

(** Unmounted, with no auto-save timer pending and the effects settled. *)
Definition Dead (s : state) : Prop := mounted s = false /\ NoSave s /\ FC s.

Lemma fire_timers_dead ids s :
  Dead s ->
  exists s', fire_timers iso ids s = Ok tt s' /\ Dead s' /\
             setItem_calls s' = setItem_calls s /\ store s' = store s.
Proof.
  revert s. induction ids as [|i r IH]; intros s (Hm & Hn & Hf).
  - exists s. repeat split; auto.
  - unfold fire_timers; fold fire_timers. unfold bind at 1, gets. cbv beta.
    destruct (find _ (timers s)) as [t|] eqn:Fd; [|apply IH; repeat split; auto].
    apply find_some in Fd as [Hin _]. pose proof (Hn t Hin) as Hs. unfold is_save in Hs.
    destruct (t_cb t) eqn:Cb; [discriminate|].
    unfold FC in Hf.
    destruct s as [fo st ls sr str ac fc mo ts ni nw sto qf calls errs]; cbn in *.
    subst mo fc.
    unfold run_callback, commit, bind, clearTimeout, setStatus, modify, gets, ret. cbn.
    destruct (IH {| form := fo; status := st; lastSaved := ls; saveTimerRef := sr;
                    statusTimerRef := str; autosave_cleanup := ac; form_changed := false;
                    mounted := false; timers := remove_timer i ts; next_id := ni; now := nw;
                    store := sto; quota_full := qf; setItem_calls := calls; errors := errs |})
      as (s' & E & D & C & S).
    + repeat split; cbn; auto.
      intros u Hu. apply in_remove_timer in Hu as [Hu _]. apply Hn, Hu.
    + exists s'. repeat split; auto; apply D.
Qed.

Lemma step_dead e s :
  Dead s ->
  exists s', step iso e s = Ok tt s' /\ Dead s' /\
             setItem_calls s' = setItem_calls s /\ store s' = store s.
Proof.
  intros D. pose proof D as (Hm & Hn & Hf).
  destruct e; unfold step;
    try (unfold if_mounted, bind, gets, ret; rewrite Hm; exists s; repeat split; auto; fail).
  - destruct (fire_timers_dead (due_ids (now s + 1) (timers s)) (set_now (now s + 1) s))
      as (s' & E & D' & C & S); [unfold Dead in *; cbn; auto|].
    exists s'. split; [|split; [exact D'|cbn in C, S; split; assumption]].
    unfold tick, bind, modify, gets. exact E.
  - unfold teardown, bind, gets, ret. rewrite Hm. exists s. repeat split; auto.
  - unfold modify. eexists. split; [reflexivity|]. unfold Dead in *. cbn. auto.
Qed.

Lemma run_dead es s :
  Dead s ->
  exists s', run iso es s = Ok tt s' /\
             setItem_calls s' = setItem_calls s /\ store s' = store s.
Proof.
  revert s. induction es as [|e r IH]; intros s D.
  - exists s. auto.
  - destruct (step_dead e s D) as (s1 & E1 & D1 & C1 & S1).
    destruct (IH s1 D1) as (s2 & E2 & C2 & S2).
    exists s2. cbn. unfold bind. rewrite E1, E2. split; [reflexivity|]. split; congruence.
Qed.

(** Unmounting a mounted component leaves it dead: unmounted, with no
    auto-save timer pending. *)
Lemma teardown_dead s :
  Inv s -> mounted s = true ->
  exists s', step iso Teardown s = Ok tt s' /\ Dead s' /\
             setItem_calls s' = setItem_calls s /\ store s' = store s.
Proof.
  intros (_ & Hr & Hf) Hm.
  destruct (cleanup_run_ok s) as [s1 E1].
  assert (N1 : NoSave s1).
  { pose proof (cleanup_NoSave s Hr) as N. rewrite E1 in N. exact N. }
  assert (K : setItem_calls s1 = setItem_calls s /\ store s1 = store s /\ FC s1).
  { rewrite cleanup_run_eq in E1. injection E1 as <-. unfold FC in *.
    destruct (autosave_cleanup s), (saveTimerRef s); cbn; auto. }
  destruct K as (K1 & K2 & K3).
  exists (set_mounted false s1). split.
  - unfold step, teardown, bind, gets, modify. rewrite Hm. rewrite E1. reflexivity.
  - unfold Dead, NoSave, FC in *. cbn. auto.
Qed.

(** C3: after the unmount of a mounted controller, whatever happens next
    (user events on the discarded component, any amount of time, the
    storage filling up), [setItem] is never called and the storage is
    unchanged: the cleanup of the auto-save effect cancelled the pending
    debounce timer. *)
Theorem no_write_after_teardown s es :
  reachable iso s -> mounted s = true ->
  exists s', run iso (Teardown :: es) s = Ok tt s' /\
             setItem_calls s' = setItem_calls s /\ store s' = store s.
Proof.
  intros R Hm.
  destruct (teardown_dead s (reachable_Inv s R) Hm) as (s1 & E1 & D1 & C1 & S1).
  destruct (run_dead es s1 D1) as (s2 & E2 & C2 & S2).
  exists s2. cbn [run]. unfold bind at 1. rewrite E1, E2.
  split; [reflexivity|]. split; congruence.
Qed.

(** ** The debounce *)

Lemma Inv_step e s s' : Inv s -> step iso e s = Ok tt s' -> Inv s'.
Proof.
  intros (Hw & Hr & Hf) E. split; [|split].
  - eapply pres_ok; [apply WF_step|exact Hw|exact E].
  - eapply pres_ok; [apply SaveRef_step|exact Hr|exact E].
  - eapply FC_step; eauto.
Qed.

Lemma run_app l1 l2 s :
  run iso (l1 ++ l2) s =
  match run iso l1 s with Ok _ s' => run iso l2 s' | Exn e s' => Exn e s' end.
Proof.
  revert s. induction l1 as [|e r IH]; intros s; cbn; [reflexivity|].
  unfold bind. destruct (step iso e s) as [[] s1|e1 s1]; [apply IH|reflexivity].
Qed.

Lemma filter_nosave (l : list timer) :
  (forall t, In t l -> is_save t = false) -> filter is_save l = [].
Proof.
  induction l as [|a l IH]; intros H; cbn; [reflexivity|].
  rewrite (H a (or_introl eq_refl)). apply IH. intros t Ht. apply H. right. exact Ht.
Qed.

Lemma filter_remove_timer i ts :
  filter is_save (remove_timer i ts) = remove_timer i (filter is_save ts).
Proof.
  unfold remove_timer. induction ts as [|a l IH]; cbn; [reflexivity|].
  destruct (Nat.eqb (t_id a) i) eqn:E; cbn; destruct (is_save a) eqn:S; cbn;
    rewrite ?E, ?IH; reflexivity.
Qed.

Lemma in_filter_save t ts : In t ts -> is_save t = true -> In t (filter is_save ts).
Proof. intros H S. apply filter_In. auto. Qed.

Lemma arm_spec f s :
  exists s', arm_autosave f s = Ok tt s' /\
    timers s' = (match saveTimerRef s with
                 | Some i => remove_timer i (timers s) | None => timers s end
                ++ [mkTimer (next_id s) (now s + SAVE_DELAY) (CbSave f)])%list /\
    mounted s' = mounted s /\ now s' = now s /\ setItem_calls s' = setItem_calls s /\
    store s' = store s.
Proof.
  destruct s as [fo st ls sr str ac fc mo ts ni nw sto qf calls errs].
  unfold arm_autosave, bind, gets, modify, setStatus, clearTimeout, setTimeout.
  destruct mo, sr; cbn; (eexists; split; [reflexivity|]); cbn; repeat split.
Qed.

(** The single pending auto-save timer, due at [due], saves [f]. *)
Definition save_pending (s : state) (f : jsval) (due : Z) : Prop :=
  exists i, filter is_save (timers s) = [mkTimer i due (CbSave f)].

Lemma edit_arms d s :
  Inv s -> mounted s = true -> doc_empty d = false ->
  exists s', step iso (Edit d) s = Ok tt s' /\ Inv s' /\ mounted s' = true /\
             now s' = now s /\ setItem_calls s' = setItem_calls s /\
             save_pending s' (doc_val d) (now s + SAVE_DELAY).
Proof.
  intros I Hm Hd. pose proof I as (_ & Hr & _).
  set (s0 := set_form_changed false (set_form_changed true (set_form (doc_val d) s))).
  destruct (cleanup_run_ok s0) as [s1 E1].
  assert (N1 : NoSave s1).
  { assert (R0 : SaveRef s0) by exact Hr.
    pose proof (cleanup_NoSave s0 R0) as N. rewrite E1 in N. exact N. }
  assert (K : mounted s1 = true /\ now s1 = now s /\ setItem_calls s1 = setItem_calls s).
  { rewrite cleanup_run_eq in E1. injection E1 as <-. subst s0.
    destruct (autosave_cleanup s), (saveTimerRef s); cbn; auto. }
  destruct K as (K1 & K2 & K3).
  destruct (arm_spec (doc_val d) s1) as (s2 & E2 & T2 & M2 & N2 & C2 & _).
  assert (E : step iso (Edit d) s = Ok tt s2).
  { rewrite (step_edit_eq d s Hm). fold s0. rewrite (autosave_effect_doc _ _ _ E1), Hd.
    exact E2. }
  exists s2. split; [exact E|]. split; [eapply Inv_step; eauto|].
  repeat split; try congruence.
  exists (next_id s1). rewrite T2, filter_app, K2. cbn.
  rewrite filter_nosave; [reflexivity|].
  intros t Ht. destruct (saveTimerRef s1); [apply in_remove_timer in Ht as [Ht _]|];
    apply N1, Ht.
Qed.

(** *** Firing timers *)

(** The state after the "saved" status timer [i] fires. *)
Definition status_fired (i : nat) (s : state) : state :=
  let s1 := set_timers (remove_timer i (timers s)) s in
  if mounted s then set_status Saved s1 else s1.

Lemma fire_status_step i r s t :
  find (fun t => Nat.eqb (t_id t) i) (timers s) = Some t -> t_cb t = CbSetSaved -> FC s ->
  fire_timers iso (i :: r) s = fire_timers iso r (status_fired i s).
Proof.
  intros F C Hf. cbn [fire_timers]. unfold bind at 1, gets. cbv beta. rewrite F, C.
  unfold FC in Hf. unfold status_fired.
  destruct s as [fo st ls sr str ac fc mo ts ni nw sto qf calls errs]; cbn in *. subst fc.
  unfold run_callback, setStatus, clearTimeout, commit, bind, modify, gets, ret. cbn.
  destruct mo; reflexivity.
Qed.

Lemma fire_save_step i r s t f :
  find (fun t => Nat.eqb (t_id t) i) (timers s) = Some t -> t_cb t = CbSave f ->
  fire_timers iso (i :: r) s =
  (saveToLocalStorage iso f;; commit;; fire_timers iso r)
    (set_timers (remove_timer i (timers s)) s).
Proof.
  intros F C. cbn [fire_timers]. unfold bind at 1, gets. cbv beta. rewrite F, C.
  reflexivity.
Qed.

Lemma status_fired_frame i s :
  form_changed (status_fired i s) = form_changed s /\
  setItem_calls (status_fired i s) = setItem_calls s /\
  now (status_fired i s) = now s /\ mounted (status_fired i s) = mounted s /\
  timers (status_fired i s) = remove_timer i (timers s).
Proof. unfold status_fired. destruct (mounted s) eqn:M; cbn; repeat split; auto. Qed.

Lemma NoSave_remove i s : NoSave s -> forall t, In t (remove_timer i (timers s)) -> is_save t = false.
Proof. intros N t Ht. apply in_remove_timer in Ht as [Ht _]. apply N, Ht. Qed.

Lemma filter_nil_NoSave l : filter is_save l = [] -> forall t, In t l -> is_save t = false.
Proof.
  intros H t Ht. destruct (is_save t) eqn:S; auto.
  assert (In t (filter is_save l)) as Hin by (apply in_filter_save; auto).
  rewrite H in Hin. contradiction.
Qed.

(** The record [saveToLocalStorage] writes at time [n]. *)
Definition saved_record (f : jsval) (n : Z) : string * stext :=
  (STORAGE_KEY, JSON_stringify (JObj [("form", f); ("timestamp", JStr (iso n))])).

Lemma save_spec f s :
  exists s', saveToLocalStorage iso f s = Ok tt s' /\
    setItem_calls s' = (setItem_calls s ++ [saved_record f (now s)])%list /\
    form_changed s' = form_changed s /\ now s' = now s /\ mounted s' = mounted s /\
    (forall t, In t (timers s') -> In t (timers s) \/ t_cb t = CbSetSaved).
Proof.
  destruct s as [fo st ls sr str ac fc mo ts ni nw sto qf calls errs].
  unfold saveToLocalStorage, try_catch, bind, gets, modify, setStatus, setItem, setLastSaved,
    clearTimeout, setTimeout, console_error, ret.
  destruct qf, mo, str as [j|]; cbn; (eexists; split; [reflexivity|]); cbn;
    repeat split; auto; intros t Ht;
    repeat match goal with
           | H : In _ (_ ++ _) |- _ => apply in_app_or in H as [H|H]
           | H : In _ [_] |- _ => destruct H as [<-|[]]; right; reflexivity
           | H : In _ (remove_timer _ _) |- _ => apply in_remove_timer in H as [H _]
           | H : In _ (filter _ _) |- _ => apply filter_In in H as [H _]
           end; auto.
Qed.

Lemma WF_status_fired i s : WF s -> WF (status_fired i s).
Proof.
  intros H. pose proof (WF_clearTimeout (Some i) s H) as H'.
  unfold status_fired. destruct (mounted s); exact H'.
Qed.

Lemma find_id i ts t :
  find (fun t => Nat.eqb (t_id t) i) ts = Some t -> In t ts /\ t_id t = i.
Proof. intros F. apply find_some in F as [H E]. apply Nat.eqb_eq in E. auto. Qed.

Lemma find_id_none i ts t :
  find (fun t => Nat.eqb (t_id t) i) ts = None -> In t ts -> t_id t <> i.
Proof.
  intros F H E. pose proof (find_none _ _ F t H) as N. cbv beta in N.
  rewrite E, Nat.eqb_refl in N. discriminate.
Qed.

Lemma remove_single i t0 :
  remove_timer i [t0] = if Nat.eqb (t_id t0) i then [] else [t0].
Proof. unfold remove_timer. cbn. destruct (Nat.eqb (t_id t0) i); reflexivity. Qed.

(** Timers fire without saving when no auto-save timer is pending. *)
Lemma fire_nosave ids s :
  WF s -> FC s -> filter is_save (timers s) = [] ->
  exists s', fire_timers iso ids s = Ok tt s' /\ WF s' /\ FC s' /\
             filter is_save (timers s') = [] /\ setItem_calls s' = setItem_calls s /\
             now s' = now s /\ mounted s' = mounted s.
Proof.
  revert s. induction ids as [|i r IH]; intros s W F N.
  - exists s. split; [reflexivity|]. split; [exact W|]. repeat split; auto.
  - destruct (find (fun t => Nat.eqb (t_id t) i) (timers s)) as [t|] eqn:Fd.
    + pose proof (find_id _ _ _ Fd) as [Hin _].
      pose proof (filter_nil_NoSave _ N t Hin) as S. unfold is_save in S.
      destruct (t_cb t) eqn:C; [discriminate|].
      rewrite (fire_status_step i r s t Fd C F).
      destruct (status_fired_frame i s) as (F1 & C1 & T1 & M1 & R1).
      destruct (IH (status_fired i s)) as (s' & E & W' & F' & N' & C' & T' & M').
      * apply WF_status_fired, W.
      * unfold FC. rewrite F1. exact F.
      * rewrite R1, filter_remove_timer, N. reflexivity.
      * exists s'. split; [exact E|]. split; [exact W'|]. repeat split; auto; congruence.
    + cbn [fire_timers]. unfold bind at 1, gets. cbv beta. rewrite Fd. apply IH; auto.
Qed.

(** Timers fire while one auto-save timer [t0] is pending: the write happens
    exactly when [t0] is among the timers fired. *)
Lemma fire_pending ids s t0 f :
  WF s -> FC s -> filter is_save (timers s) = [t0] -> t_cb t0 = CbSave f ->
  exists s', fire_timers iso ids s = Ok tt s' /\ WF s' /\ FC s' /\
             now s' = now s /\ mounted s' = mounted s /\
             (In (t_id t0) ids ->
              setItem_calls s' = (setItem_calls s ++ [saved_record f (now s)])%list /\
              filter is_save (timers s') = []) /\
             (~ In (t_id t0) ids ->
              setItem_calls s' = setItem_calls s /\ filter is_save (timers s') = [t0]).
Proof.
  intros W F P C0.
  assert (I0 : In t0 (timers s)).
  { assert (H : In t0 (filter is_save (timers s))) by (rewrite P; left; reflexivity).
    apply filter_In in H as [H _]. exact H. }
  revert s W F P I0. induction ids as [|i r IH]; intros s W F P I0.
  - exists s. split; [reflexivity|]. split; [exact W|]. split; [exact F|].
    split; [reflexivity|]. split; [reflexivity|]. split; [intros []|]. intros _. auto.
  - destruct (find (fun t => Nat.eqb (t_id t) i) (timers s)) as [t|] eqn:Fd.
    + pose proof (find_id _ _ _ Fd) as [Hin Hid].
      destruct (t_cb t) as [g|] eqn:C.
      * (* the pending auto-save fires *)
        assert (Tt : t = t0).
        { assert (H : In t (filter is_save (timers s)))
            by (apply in_filter_save; [exact Hin|unfold is_save; rewrite C; reflexivity]).
          rewrite P in H. destruct H as [H|[]]. symmetry. exact H. }
        subst t. rewrite C in C0. injection C0 as <-.
        rewrite (fire_save_step i r s t0 g Fd C).
        set (s1 := set_timers (remove_timer i (timers s)) s).
        destruct (save_spec g s1) as (s2 & E2 & C2 & F2 & T2 & M2 & H2).
        assert (W2 : WF s2).
        { eapply pres_ok; [apply WF_saveToLocalStorage| |exact E2].
          exact (WF_clearTimeout (Some i) s W). }
        assert (FC2 : FC s2) by (unfold FC; rewrite F2; exact F).
        assert (N2 : filter is_save (timers s2) = []).
        { apply filter_nosave. intros u Hu. destruct (H2 u Hu) as [Hu'|Cu].
          - destruct (is_save u) eqn:S; [|reflexivity].
            assert (Hf : In u (filter is_save (timers s1))) by (apply in_filter_save; auto).
            unfold s1 in Hf. cbn [timers set_timers] in Hf.
            rewrite filter_remove_timer, P, remove_single, Hid, Nat.eqb_refl in Hf.
            contradiction.
          - unfold is_save. rewrite Cu. reflexivity. }
        destruct (fire_nosave r s2 W2 FC2 N2) as (s3 & E3 & W3 & F3 & N3 & C3 & T3 & M3).
        exists s3. unfold bind. rewrite E2, (commit_settled s2 FC2), E3.
        split; [reflexivity|]. split; [exact W3|]. split; [exact F3|].
        split; [rewrite T3, T2; reflexivity|]. split; [rewrite M3, M2; reflexivity|]. split.
        -- intros _. split; [|exact N3]. rewrite C3, C2. reflexivity.
        -- intros H. exfalso. apply H. left. symmetry. exact Hid.
      * (* a "saved" status timer fires *)
        assert (Hne : t_id t0 <> i).
        { intros E. assert (t = t0).
          { destruct W as [_ Nd]. apply (nodup_map_inj t_id (timers s)); auto. congruence. }
          subst t. congruence. }
        rewrite (fire_status_step i r s t Fd C F).
        destruct (status_fired_frame i s) as (F1 & C1 & T1 & M1 & R1).
        destruct (IH (status_fired i s)) as (s' & E & W' & F' & T' & M' & Y & Nn).
        -- apply WF_status_fired, W.
        -- unfold FC. rewrite F1. exact F.
        -- rewrite R1, filter_remove_timer, P, remove_single.
           apply Nat.eqb_neq in Hne. rewrite Hne. reflexivity.
        -- rewrite R1. apply in_remove_timer. auto.
        -- exists s'. split; [exact E|]. split; [exact W'|]. split; [exact F'|].
           split; [congruence|]. split; [congruence|]. split.
           ++ intros [H|H]; [congruence|]. rewrite C1, T1 in Y. apply Y, H.
           ++ intros H. rewrite <- C1. apply Nn. intros H'. apply H. right. exact H'.
    + assert (Hne : t_id t0 <> i) by (apply (find_id_none i (timers s)); auto).
      cbn [fire_timers]. unfold bind at 1, gets. cbv beta. rewrite Fd.
      destruct (IH s W F P I0) as (s' & E & W' & F' & T' & M' & Y & Nn).
      exists s'. split; [exact E|]. split; [exact W'|]. split; [exact F'|].
      split; [exact T'|]. split; [exact M'|]. split.
      * intros [Hi|Hi]; [congruence|]. apply Y, Hi.
      * intros Hi. apply Nn. intros Hi'. apply Hi. right. exact Hi'.
Qed.

(** *** Ticks *)

Lemma tick_eq s :
  tick iso s = fire_timers iso (due_ids (now s + 1) (timers s)) (set_now (now s + 1) s).
Proof. unfold tick, bind, modify, gets. reflexivity. Qed.

Lemma run_cons e l s :
  run iso (e :: l) s =
  match step iso e s with Ok _ s' => run iso l s' | Exn x s' => Exn x s' end.
Proof. reflexivity. Qed.

Lemma in_due_ids t0 n ts :
  NoDup (map t_id ts) -> In t0 ts -> (In (t_id t0) (due_ids n ts) <-> t_due t0 <= n).
Proof.
  intros Nd I0. unfold due_ids. split.
  - intros H. apply in_map_iff in H as [t [Et Ht]].
    apply filter_In in Ht as [Ht Le]. apply Z.leb_le in Le.
    assert (t = t0) as -> by (apply (nodup_map_inj t_id ts); auto).
    exact Le.
  - intros Le. apply in_map. apply filter_In. split; [exact I0|]. apply Z.leb_le, Le.
Qed.

(** One tick while the auto-save timer [t0] is pending: it fires exactly
    when it is due. *)
Lemma tick_pending s t0 f :
  Inv s -> filter is_save (timers s) = [t0] -> t_cb t0 = CbSave f ->
  exists s', step iso Tick s = Ok tt s' /\ Inv s' /\ now s' = now s + 1 /\
             mounted s' = mounted s /\
             (t_due t0 <= now s + 1 ->
              setItem_calls s' = (setItem_calls s ++ [saved_record f (now s + 1)])%list /\
              filter is_save (timers s') = []) /\
             (now s + 1 < t_due t0 ->
              setItem_calls s' = setItem_calls s /\ filter is_save (timers s') = [t0]).
Proof.
  intros I P C. pose proof I as ((Hb & Nd) & _ & F).
  assert (I0 : In t0 (timers s)).
  { assert (H : In t0 (filter is_save (timers s))) by (rewrite P; left; reflexivity).
    apply filter_In in H as [H _]. exact H. }
  destruct (fire_pending (due_ids (now s + 1) (timers s)) (set_now (now s + 1) s) t0 f)
    as (s' & E & W' & F' & T' & M' & Y & Nn); [exact (conj Hb Nd)|exact F|exact P|exact C|].
  assert (E' : step iso Tick s = Ok tt s') by (cbn [step]; rewrite tick_eq; exact E).
  exists s'. split; [exact E'|]. split; [eapply Inv_step; eauto|].
  split; [exact T'|]. split; [exact M'|]. split.
  - intros Le. apply Y, in_due_ids; auto.
  - intros Lt. apply Nn. rewrite in_due_ids by auto. lia.
Qed.

Lemma tick_nosave s :
  Inv s -> filter is_save (timers s) = [] ->
  exists s', step iso Tick s = Ok tt s' /\ Inv s' /\ filter is_save (timers s') = [] /\
             setItem_calls s' = setItem_calls s /\ now s' = now s + 1 /\
             mounted s' = mounted s.
Proof.
  intros I N. pose proof I as (W & _ & F).
  destruct (fire_nosave (due_ids (now s + 1) (timers s)) (set_now (now s + 1) s))
    as (s' & E & W' & F' & N' & C' & T' & M'); [exact W|exact F|exact N|].
  assert (E' : step iso Tick s = Ok tt s') by (cbn [step]; rewrite tick_eq; exact E).
  exists s'. split; [exact E'|]. split; [eapply Inv_step; eauto|]. auto.
Qed.

Lemma ticks_wait k s t0 f :
  Inv s -> filter is_save (timers s) = [t0] -> t_cb t0 = CbSave f ->
  now s + Z.of_nat k < t_due t0 ->
  exists s', run iso (repeat Tick k) s = Ok tt s' /\ Inv s' /\
             filter is_save (timers s') = [t0] /\ setItem_calls s' = setItem_calls s /\
             now s' = now s + Z.of_nat k /\ mounted s' = mounted s.
Proof.
  revert s. induction k as [|k IH]; intros s I P C Lt.
  - exists s. split; [reflexivity|]. split; [exact I|]. cbn. repeat split; auto. lia.
  - destruct (tick_pending s t0 f I P C) as (s1 & E1 & I1 & T1 & M1 & _ & Nn).
    destruct (Nn ltac:(lia)) as [C1 P1].
    destruct (IH s1 I1 P1 C ltac:(lia)) as (s2 & E2 & I2 & P2 & C2 & T2 & M2).
    exists s2. cbn [repeat]. rewrite run_cons, E1, E2.
    split; [reflexivity|]. split; [exact I2|]. repeat split; try congruence. lia.
Qed.

Lemma ticks_nosave k s :
  Inv s -> filter is_save (timers s) = [] ->
  exists s', run iso (repeat Tick k) s = Ok tt s' /\ Inv s' /\
             filter is_save (timers s') = [] /\ setItem_calls s' = setItem_calls s /\
             mounted s' = mounted s.
Proof.
  revert s. induction k as [|k IH]; intros s I N.
  - exists s. split; [reflexivity|]. split; [exact I|]. auto.
  - destruct (tick_nosave s I N) as (s1 & E1 & I1 & N1 & C1 & _ & M1).
    destruct (IH s1 I1 N1) as (s2 & E2 & I2 & N2 & C2 & M2).
    exists s2. cbn [repeat]. rewrite run_cons, E1, E2.
    split; [reflexivity|]. split; [exact I2|]. repeat split; congruence.
Qed.

(** Once the debounce delay has passed, the pending save has been written,
    once, and stamped with the time it fell due. *)
Lemma ticks_save n s f :
  Inv s -> save_pending s f (now s + SAVE_DELAY) -> (2000 <= n)%nat ->
  exists s', run iso (repeat Tick n) s = Ok tt s' /\ Inv s' /\
             setItem_calls s' =
               (setItem_calls s ++ [saved_record f (now s + SAVE_DELAY)])%list /\
             mounted s' = mounted s.
Proof.
  intros I [i P] Hn.
  replace n with (1999 + S (n - 2000))%nat by lia.
  rewrite repeat_app, run_app.
  destruct (ticks_wait 1999 s _ f I P eq_refl) as (s1 & E1 & I1 & P1 & C1 & T1 & M1);
    [cbn; unfold SAVE_DELAY; lia|].
  rewrite E1. cbn [repeat]. rewrite run_cons.
  destruct (tick_pending s1 _ f I1 P1 eq_refl) as (s2 & E2 & I2 & T2 & M2 & Y & _).
  destruct Y as [C2 N2]; [cbn; rewrite T1; unfold SAVE_DELAY; lia|].
  rewrite E2.
  destruct (ticks_nosave (n - 2000) s2 I2 N2) as (s3 & E3 & I3 & N3 & C3 & M3).
  exists s3. split; [exact E3|]. split; [exact I3|]. split; [|congruence].
  rewrite C3, C2, C1, T1. unfold SAVE_DELAY. do 3 f_equal. lia.
Qed.

(** *** Bursts of edits *)

(** A burst: each edit [d] is followed by [k] milliseconds without input. *)
Fixpoint burst (pre : list (document * nat)) : list event :=
  match pre with
  | [] => []
  | (d, k) :: r => (Edit d :: repeat Tick k) ++ burst r
  end.

Fixpoint burst_time (pre : list (document * nat)) : nat :=
  match pre with
  | [] => 0
  | (_, k) :: r => k + burst_time r
  end.

(** Each edit of the burst comes before the previous one's debounce delay
    has passed. *)
Definition fast_edit (p : document * nat) : Prop :=
  doc_empty (fst p) = false /\ (snd p < 2000)%nat.

Lemma burst_ok pre s :
  Inv s -> mounted s = true -> Forall fast_edit pre ->
  exists s', run iso (burst pre) s = Ok tt s' /\ Inv s' /\ mounted s' = true /\
             setItem_calls s' = setItem_calls s /\
             now s' = now s + Z.of_nat (burst_time pre).
Proof.
  revert s. induction pre as [|[d k] r IH]; intros s I Hm Hf.
  - exists s. split; [reflexivity|]. split; [exact I|]. cbn. repeat split; auto. lia.
  - inversion Hf as [|p q [Hd Hk] Hr]; subst. cbn [fst snd] in Hd, Hk.
    destruct (edit_arms d s I Hm Hd) as (s1 & E1 & I1 & M1 & T1 & C1 & [i P1]).
    destruct (ticks_wait k s1 _ (doc_val d) I1 P1 eq_refl)
      as (s2 & E2 & I2 & _ & C2 & T2 & M2); [cbn; rewrite T1; unfold SAVE_DELAY; lia|].
    destruct (IH s2 I2 ltac:(congruence) Hr) as (s3 & E3 & I3 & M3 & C3 & T3).
    exists s3. cbn [burst]. rewrite run_app. cbn [app]. rewrite run_cons, E1, E2, E3.
    split; [reflexivity|]. split; [exact I3|]. split; [exact M3|]. split; [congruence|].
    cbn [burst_time]. rewrite T3, T2, T1. lia.
Qed.

Lemma step_clear_eq s : mounted s = true ->
  step iso (Clear true) s =
  autosave_effect (doc_val empty_doc)
    (set_form_changed false
       (set_store (assoc_remove STORAGE_KEY (store s))
          (set_status Idle (set_lastSaved JNull
             (set_form_changed true (set_form (doc_val empty_doc) s)))))).
Proof.
  intros Hm. destruct s as [fo st ls sr str ac fc mo ts ni nw sto qf calls errs].
  cbn in Hm. subst mo.
  unfold step, if_mounted, handleClear, setForm, setLastSaved, setStatus, removeItem,
    try_catch, commit, bind, gets, modify, ret.
  reflexivity.
Qed.

(** A confirmed clear leaves no auto-save timer pending. *)
Lemma clear_nosave s :
  Inv s -> mounted s = true ->
  exists s', step iso (Clear true) s = Ok tt s' /\ Inv s' /\
             filter is_save (timers s') = [] /\ setItem_calls s' = setItem_calls s.
Proof.
  intros I Hm. pose proof I as (_ & Hr & _).
  set (s0 := set_form_changed false
       (set_store (assoc_remove STORAGE_KEY (store s))
          (set_status Idle (set_lastSaved JNull
             (set_form_changed true (set_form (doc_val empty_doc) s)))))).
  destruct (cleanup_run_ok s0) as [s1 E1].
  assert (N1 : NoSave s1).
  { assert (R0 : SaveRef s0) by exact Hr.
    pose proof (cleanup_NoSave s0 R0) as N. rewrite E1 in N. exact N. }
  assert (E : step iso (Clear true) s = Ok tt s1).
  { rewrite (step_clear_eq s Hm). fold s0.
    rewrite (autosave_effect_doc empty_doc _ _ E1). reflexivity. }
  exists s1. split; [exact E|]. split; [eapply Inv_step; eauto|].
  split; [apply filter_nosave, N1|].
  rewrite cleanup_run_eq in E1. injection E1 as <-. subst s0.
  destruct (autosave_cleanup s), (saveTimerRef s); reflexivity.
Qed.

(** C2: take a mounted component and a burst of edits with non-empty
    documents, each made less than [SAVE_DELAY] ms after the previous one,
    ending with the edit [dl]. Right after the burst exactly one auto-save
    timer is pending, and it saves [dl]: each edit's auto-save effect
    cancelled the timer armed before it. If [SAVE_DELAY] ms or more then
    pass, [setItem] has been called exactly once, with [dl] (stamped with
    the time the delay ran out). If an unmount or a confirmed clear comes
    less than [SAVE_DELAY] ms after [dl], [setItem] is never called,
    however much time passes. *)
Theorem debounce_single_write s pre dl n j m e :
  reachable iso s -> mounted s = true -> Forall fast_edit pre -> doc_empty dl = false ->
  (2000 <= n)%nat -> (j < 2000)%nat -> In e [Teardown; Clear true] ->
  let T := now s + Z.of_nat (burst_time pre) in
  (exists s', run iso (burst pre ++ [Edit dl]) s = Ok tt s' /\
              save_pending s' (doc_val dl) (T + SAVE_DELAY)) /\
  (exists s', run iso (burst pre ++ Edit dl :: repeat Tick n) s = Ok tt s' /\
              setItem_calls s' =
                (setItem_calls s ++ [saved_record (doc_val dl) (T + SAVE_DELAY)])%list) /\
  (exists s', run iso (burst pre ++ Edit dl :: repeat Tick j ++ e :: repeat Tick m) s
                = Ok tt s' /\
              setItem_calls s' = setItem_calls s).
Proof.
  intros R Hm Hf Hd Hn Hj He T.
  pose proof (reachable_Inv s R) as I.
  destruct (burst_ok pre s I Hm Hf) as (s1 & E1 & I1 & M1 & C1 & T1).
  destruct (edit_arms dl s1 I1 M1 Hd) as (s2 & E2 & I2 & M2 & T2 & C2 & P2).
  rewrite T1 in P2. fold T in P2.
  split; [|split].
  - exists s2. rewrite run_app, E1, run_cons, E2. split; [reflexivity|exact P2].
  - assert (P2' : save_pending s2 (doc_val dl) (now s2 + SAVE_DELAY))
      by (rewrite T2, T1; exact P2).
    destruct (ticks_save n s2 (doc_val dl) I2 P2' Hn) as (s3 & E3 & _ & C3 & _).
    exists s3. rewrite run_app, E1, run_cons, E2, E3. split; [reflexivity|].
    rewrite C3, C2, C1, T2, T1. reflexivity.
  - destruct P2 as [i P2].
    destruct (ticks_wait j s2 _ (doc_val dl) I2 P2 eq_refl)
      as (s3 & E3 & I3 & _ & C3 & _ & M3); [cbn; rewrite T2, T1; unfold T, SAVE_DELAY; lia|].
    rewrite run_app, E1, run_cons, E2, run_app, E3, run_cons.
    destruct He as [<-|[<-|[]]].
    + destruct (teardown_dead s3 I3 ltac:(congruence)) as (s4 & E4 & D4 & C4 & _).
      destruct (run_dead (repeat Tick m) s4 D4) as (s5 & E5 & C5 & _).
      exists s5. rewrite E4, E5. split; [reflexivity|]. congruence.
    + destruct (clear_nosave s3 I3 ltac:(congruence)) as (s4 & E4 & I4 & N4 & C4).
      destruct (ticks_nosave m s4 I4 N4) as (s5 & E5 & _ & _ & C5 & _).
      exists s5. rewrite E4, E5. split; [reflexivity|]. congruence.
Qed.

End Proofs.

(** * The view components and the input handler *)

(** ** Word count of the preview *)

(** The number of maximal runs of non-whitespace in [l]; [in_word] says
    the unit before [l] was not whitespace. *)
Fixpoint wc_go (in_word : bool) (l : list Z) : nat :=
  match l with
  | [] => 0
  | c :: r => if is_ws c then wc_go false r else (if in_word then 0 else 1) + wc_go true r
  end.

Lemma nonempty_rev {A} (l : list A) : nonempty (rev l) = nonempty l.
Proof.
  destruct l as [|a l]; [reflexivity|]. cbn. destruct (rev l); reflexivity.
Qed.

Lemma split_ws_go_count cur b l :
  (b = true -> cur = []) ->
  length (filter nonempty (split_ws_go cur b l)) =
  ((if nonempty cur then 1 else 0) + wc_go (nonempty cur) l)%nat.
Proof.
  revert cur b. induction l as [|c r IH]; intros cur b Hb; cbn.
  - rewrite nonempty_rev. destruct (nonempty cur); reflexivity.
  - destruct (is_ws c).
    + destruct b.
      * rewrite (Hb eq_refl). apply (IH [] true). reflexivity.
      * cbn. rewrite nonempty_rev. pose proof (IH [] true (fun _ => eq_refl)) as E. cbn in E.
        destruct (nonempty cur); cbn; rewrite E; reflexivity.
    + rewrite (IH (c :: cur) false) by discriminate. cbn.
      destruct (nonempty cur); reflexivity.
Qed.

Lemma word_count_wc_go u : word_count u = wc_go false u.
Proof. unfold word_count, split_ws. apply (split_ws_go_count [] false). discriminate. Qed.

Lemma wc_go_app w a c b :
  is_ws c = true -> wc_go w (a ++ c :: b)%list = (wc_go w a + wc_go false b)%nat.
Proof.
  intros Hc. revert w. induction a as [|x a IH]; intros w; cbn.
  - rewrite Hc. reflexivity.
  - destruct (is_ws x); rewrite IH; lia.
Qed.

(** Extra: the preview's word count is additive over a whitespace unit:
    for any UTF-16 code units [a] and [b] and any unit [c] that [\s]
    matches, the words of [a], [c], [b] are the words of [a] plus the words
    of [b]. *)
Theorem word_count_sep a c b :
  is_ws c = true -> word_count (a ++ c :: b)%list = (word_count a + word_count b)%nat.
Proof. intros Hc. rewrite !word_count_wc_go. apply wc_go_app, Hc. Qed.

(** Extra: the preview counts zero words exactly when the content's code
    units are all matched by [\s] (the empty content included). *)
Theorem word_count_zero u :
  word_count u = 0%nat <-> forallb is_ws u = true.
Proof.
  rewrite word_count_wc_go. induction u as [|c r IH]; cbn.
  - split; reflexivity.
  - destruct (is_ws c); cbn; [exact IH|]. split; discriminate.
Qed.

(** ** A loaded form the render cannot show *)

Lemma render_nonstring_content fs s :
  truthy (lookup_field "title" fs) = true ->
  (forall x, lookup_field "content" fs <> JStr x) ->
  render (JObj fs) s = Exn "TypeError" s.
Proof.
  intros Ht Hc. unfold render, FormPreview, bind, get_prop, ret. cbn. rewrite Ht. cbn.
  destruct (lookup_field "content" fs) eqn:Ec; try reflexivity.
  exfalso. exact (Hc s0 eq_refl).
Qed.

(** Extra: a stored record whose form has a truthy [title] and a
    [content] that is not a string (missing, [null], a number, an array,
    an object, ...) is adopted by the load (status "saved"), and the
    re-render then throws a [TypeError] in [FormPreview] (reading
    [form.content.length] or calling [form.content.split]) before any
    effect of that render: the status never becomes "unsaved", no
    auto-save timer is armed and nothing is written. *)
Theorem load_nonstring_content_crashes fs ts full :
  truthy (lookup_field "title" fs) = true ->
  (forall x, lookup_field "content" fs <> JStr x) ->
  exists s,
    mount [(STORAGE_KEY, TJson (JObj [("form", JObj fs); ("timestamp", ts)]))] full
      = Exn "TypeError" s /\
    form s = JObj fs /\ lastSaved s = ts /\ status s = Saved /\
    filter is_save (timers s) = [] /\ setItem_calls s = [].
Proof.
  intros Ht Hc.
  unfold mount, load_effect, getItem, try_catch, bind, gets, ret, commit; cbn.
  unfold bind. rewrite (render_nonstring_content fs _ Ht Hc).
  eexists. split; [reflexivity|]. cbn. repeat split.
Qed.

(** ** The time shown for the last save *)

(** Extra: [formatTimestamp] of a truthy timestamp that is a valid date
    [date] shows "just now" when less than a minute has passed since
    [date], also when [date] is in the future; "1 minute ago" from one to
    two minutes; "<n> minutes ago" with the whole number [n] of minutes
    from two minutes to an hour; the date's [toLocaleString] from an hour
    on. An invalid date shows "Invalid Date". *)
Theorem formatTimestamp_ranges Date_of Date_now loc ts :
  truthy ts = true ->
  (Date_of ts = None -> formatTimestamp Date_of Date_now loc ts = Some "Invalid Date") /\
  (forall date, Date_of ts = Some date ->
     let diff := Date_now - date in
     (diff < 60000 -> formatTimestamp Date_of Date_now loc ts = Some "just now") /\
     (60000 <= diff < 120000 ->
        formatTimestamp Date_of Date_now loc ts = Some "1 minute ago") /\
     (120000 <= diff < 3600000 ->
        2 <= diff / 60000 <= 59 /\
        formatTimestamp Date_of Date_now loc ts =
          Some (string_of_Z (diff / 60000) ++ " minutes ago")) /\
     (3600000 <= diff -> formatTimestamp Date_of Date_now loc ts = Some (loc date))).
Proof.
  intros Ht. unfold formatTimestamp. rewrite Ht. cbn [negb]. split.
  - intros ->. reflexivity.
  - intros date Hd. rewrite Hd. set (diff := Date_now - date).
    assert (Hq : forall lo hi, lo * 60000 <= diff < hi * 60000 -> lo <= diff / 60000 < hi).
    { intros lo hi H. split.
      - apply Z.div_le_lower_bound; lia.
      - apply Z.div_lt_upper_bound; lia. }
    split; [|split; [|split]].
    + intros H. assert (diff / 60000 < 1) by (apply Z.div_lt_upper_bound; lia).
      replace (Z.ltb (diff / 60000) 1) with true by (symmetry; apply Z.ltb_lt; lia).
      reflexivity.
    + intros H. assert (E : diff / 60000 = 1) by (pose proof (Hq 1 2 ltac:(lia)); lia).
      rewrite E. reflexivity.
    + intros H. pose proof (Hq 2 60 ltac:(lia)) as Q. split; [lia|].
      replace (Z.ltb (diff / 60000) 1) with false by (symmetry; apply Z.ltb_ge; lia).
      replace (Z.eqb (diff / 60000) 1) with false by (symmetry; apply Z.eqb_neq; lia).
      replace (Z.ltb (diff / 60000) 60) with true by (symmetry; apply Z.ltb_lt; lia).
      reflexivity.
    + intros H. assert (60 <= diff / 60000) by (apply Z.div_le_lower_bound; lia).
      replace (Z.ltb (diff / 60000) 1) with false by (symmetry; apply Z.ltb_ge; lia).
      replace (Z.eqb (diff / 60000) 1) with false by (symmetry; apply Z.eqb_neq; lia).
      replace (Z.ltb (diff / 60000) 60) with false by (symmetry; apply Z.ltb_ge; lia).
      reflexivity.
Qed.

(** * More of the controller *)

Lemma assoc_get_remove_other k k' l :
  k <> k' -> assoc_get k (assoc_remove k' l) = assoc_get k l.
Proof.
  intros Hne. induction l as [|[k1 v] r IH]; cbn; [reflexivity|].
  destruct (String.eqb k' k1) eqn:E1.
  - apply String.eqb_eq in E1. subst k1. apply String.eqb_neq in Hne. rewrite Hne. exact IH.
  - cbn. destruct (String.eqb k k1); [reflexivity|exact IH].
Qed.

Lemma assoc_get_remove_same k l : assoc_get k (assoc_remove k l) = None.
Proof.
  induction l as [|[k1 v] r IH]; cbn; [reflexivity|].
  destruct (String.eqb k k1) eqn:E; [exact IH|]. cbn. rewrite E. exact IH.
Qed.

Lemma assoc_get_set_same k v l : assoc_get k (assoc_set k v l) = Some v.
Proof. unfold assoc_set. cbn. rewrite String.eqb_refl. reflexivity. Qed.

Lemma assoc_get_set_other k k' v l :
  k <> k' -> assoc_get k (assoc_set k' v l) = assoc_get k l.
Proof.
  intros Hne. unfold assoc_set. cbn.
  destruct (String.eqb k k') eqn:E; [apply String.eqb_eq in E; contradiction|].
  apply assoc_get_remove_other, Hne.
Qed.

Lemma assoc_remove_idem k l : assoc_remove k (assoc_remove k l) = assoc_remove k l.
Proof.
  induction l as [|[k1 v] r IH]; cbn; [reflexivity|].
  destruct (String.eqb k k1) eqn:E; [exact IH|]. cbn. rewrite E, IH. reflexivity.
Qed.

Lemma handleChange_title v d s :
  form s = doc_val d -> handleChange "title" v s = edit (mkDoc v (content d)) s.
Proof.
  intros Hf. unfold handleChange, setForm_with, edit, setForm, modify. rewrite Hf.
  reflexivity.
Qed.

Lemma handleChange_content v d s :
  form s = doc_val d -> handleChange "content" v s = edit (mkDoc (title d) v) s.
Proof.
  intros Hf. unfold handleChange, setForm_with, edit, setForm, modify. rewrite Hf.
  reflexivity.
Qed.

Lemma arm_fields f s s' :
  arm_autosave f s = Ok tt s' ->
  status s' = (if mounted s then Unsaved else status s) /\ form s' = form s /\
  lastSaved s' = lastSaved s /\ store s' = store s.
Proof.
  destruct s as [fo st ls sr str ac fc mo ts ni nw sto qf calls errs].
  unfold arm_autosave, bind, gets, modify, setStatus, clearTimeout, setTimeout.
  destruct mo, sr; cbn; intros H; injection H as <-; cbn; auto.
Qed.

Section Extras.

Variable iso : Z -> string.

(** Extra: when the form holds a document, typing [v] into the title input
    ([handleChange] with name "title", then the re-render) is the edit of
    the document with title [v] and the same content, and typing into the
    content input is the edit of the document with the same title and
    content [v]: the functional update [{...prev, [name]: value}] keeps the
    other field and the field order. *)
Theorem handleChange_is_edit d v s :
  form s = doc_val d ->
  if_mounted (handleChange "title" v;; commit) s = step iso (Edit (mkDoc v (content d))) s /\
  if_mounted (handleChange "content" v;; commit) s = step iso (Edit (mkDoc (title d) v)) s.
Proof.
  intros Hf. unfold step, if_mounted, bind, gets.
  destruct (mounted s); [|split; reflexivity].
  rewrite (handleChange_title v d s Hf), (handleChange_content v d s Hf). split; reflexivity.
Qed.

(** Extra: in every reachable state at most one auto-save timer is
    pending. *)
Theorem at_most_one_pending_save s :
  reachable iso s -> (length (filter is_save (timers s)) <= 1)%nat.
Proof.
  intros R. destruct (reachable_Inv iso s R) as ((_ & Nd) & Hr & _).
  pose proof (nodup_map_filter t_id is_save _ Nd) as Nd'.
  destruct (filter is_save (timers s)) as [|x [|y r]] eqn:E; cbn; try lia.
  exfalso.
  assert (Hx : In x (filter is_save (timers s))) by (rewrite E; left; reflexivity).
  assert (Hy : In y (filter is_save (timers s))) by (rewrite E; right; left; reflexivity).
  apply filter_In in Hx as [Hx Sx]. apply filter_In in Hy as [Hy Sy].
  destruct (Hr x Hx Sx) as [Ex _]. destruct (Hr y Hy Sy) as [Ey _].
  cbn in Nd'. inversion Nd' as [|a b Hn _]. apply Hn. left. congruence.
Qed.

(** Extra: an edit with a non-empty document on a mounted component sets
    the form to it and the status to "unsaved", keeps [lastSaved] and the
    storage, calls no [setItem], and leaves exactly one auto-save timer
    pending, for this document, due [SAVE_DELAY] ms later. *)
Theorem edit_nonempty_unsaved d s :
  reachable iso s -> mounted s = true -> doc_empty d = false ->
  exists s', step iso (Edit d) s = Ok tt s' /\
             form s' = doc_val d /\ status s' = Unsaved /\ lastSaved s' = lastSaved s /\
             store s' = store s /\ setItem_calls s' = setItem_calls s /\
             save_pending s' (doc_val d) (now s + SAVE_DELAY).
Proof.
  intros R Hm Hd. pose proof (reachable_Inv iso s R) as I.
  destruct (edit_arms iso d s I Hm Hd) as (s' & E & _ & _ & _ & C & P).
  exists s'. split; [exact E|].
  destruct (cleanup_run_ok
              (set_form_changed false (set_form_changed true (set_form (doc_val d) s))))
    as [s1 E1].
  pose proof E as E'.
  rewrite (step_edit_eq iso d s Hm), (autosave_effect_doc _ _ _ E1), Hd in E'.
  destruct (arm_fields _ _ _ E') as (S' & F' & L' & T').
  rewrite cleanup_run_eq in E1. injection E1 as <-.
  rewrite S', F', L', T'.
  destruct (autosave_cleanup s), (saveTimerRef s); cbn; rewrite ?Hm;
    repeat split; assumption.
Qed.

Lemma manual_save_spec s :
  Inv s -> mounted s = true -> quota_full s = false ->
  exists s', step iso ManualSave s = Ok tt s' /\ Inv s' /\
    status s' = Saving /\ lastSaved s' = JStr (iso (now s)) /\
    store s' = assoc_set STORAGE_KEY (snd (saved_record iso (form s) (now s))) (store s) /\
    NoSave s' /\ mounted s' = true /\ now s' = now s /\
    In (mkTimer (next_id s) (now s + STATUS_DELAY) CbSetSaved) (timers s').
Proof.
  intros I Hm Hq. pose proof I as (_ & Hr & F).
  assert (K : exists s', step iso ManualSave s = Ok tt s' /\
    status s' = Saving /\ lastSaved s' = JStr (iso (now s)) /\
    store s' = assoc_set STORAGE_KEY (snd (saved_record iso (form s) (now s))) (store s) /\
    NoSave s' /\ mounted s' = true /\ now s' = now s /\
    In (mkTimer (next_id s) (now s + STATUS_DELAY) CbSetSaved) (timers s')).
  { unfold SaveRef, FC in *.
    destruct s as [fo st ls sr str ac fc mo ts ni nw sto qf calls errs]; cbn in *.
    subst mo qf fc.
    unfold step, if_mounted, handleManualSave, commit, saveToLocalStorage, try_catch,
      bind, gets, clearTimeout, setTimeout, modify, setStatus, setLastSaved, setItem, ret.
    destruct sr as [i|], str as [j|]; cbn; (eexists; split; [reflexivity|]); cbn;
      (split; [reflexivity|]); (split; [reflexivity|]); (split; [reflexivity|]);
      (split; [|split; [reflexivity|split; [reflexivity|apply in_or_app; right; left; reflexivity]]]);
      intros t Ht; cbn in Ht;
      repeat match goal with
             | H : In _ (_ ++ _) |- _ => apply in_app_or in H as [H|H]
             | H : In _ [_] |- _ => destruct H as [<-|[]]; reflexivity
             | H : In _ (filter _ _) |- _ => apply filter_In in H as [H ?]
             end;
      (destruct (is_save t) eqn:S; [|reflexivity]);
      destruct (Hr t Ht S) as [E _];
      first [discriminate
            |injection E as E; subst i; rewrite Nat.eqb_refl in *; cbn in *; discriminate]. }
  destruct K as (s' & E & K). exists s'. split; [exact E|]. split; [eapply Inv_step; eauto|].
  exact K.
Qed.

(** Extra: a manual save with free storage space on a mounted component
    sets the status to "saving" and [lastSaved] to the save time, stores
    under [STORAGE_KEY] the JSON text of [{form, timestamp}], leaves every
    other key as it was, and cancels the pending auto-save: no auto-save
    timer is left. *)
Theorem manual_save_writes s :
  reachable iso s -> mounted s = true -> quota_full s = false ->
  exists s', step iso ManualSave s = Ok tt s' /\
    status s' = Saving /\ lastSaved s' = JStr (iso (now s)) /\
    assoc_get STORAGE_KEY (store s') =
      Some (JSON_stringify (JObj [("form", form s); ("timestamp", JStr (iso (now s)))])) /\
    (forall k, k <> STORAGE_KEY -> assoc_get k (store s') = assoc_get k (store s)) /\
    filter is_save (timers s') = [].
Proof.
  intros R Hm Hq.
  destruct (manual_save_spec s (reachable_Inv iso s R) Hm Hq)
    as (s' & E & _ & S' & L' & St & N' & _).
  exists s'. split; [exact E|]. split; [exact S'|]. split; [exact L'|].
  rewrite St. split; [apply assoc_get_set_same|]. split.
  - intros k Hk. apply assoc_get_set_other, Hk.
  - apply filter_nosave, N'.
Qed.

(** Timers without auto-save timers fire: the status stays or becomes
    "saved"; it is "saved" once a listed timer has fired; unlisted timers
    stay queued. *)
Lemma fire_status ids s s' :
  filter is_save (timers s) = [] -> FC s -> mounted s = true ->
  fire_timers iso ids s = Ok tt s' ->
  (status s' = status s \/ status s' = Saved) /\
  (forall t, In t (timers s) -> In (t_id t) ids -> status s' = Saved) /\
  (forall t, In t (timers s) -> ~ In (t_id t) ids -> In t (timers s')).
Proof.
  revert s. induction ids as [|i r IH]; intros s N F Hm E.
  - cbn [fire_timers] in E. unfold ret in E. injection E as <-.
    split; [left; reflexivity|]. split; [intros t _ []|]. intros t Ht _. exact Ht.
  - destruct (find (fun t => Nat.eqb (t_id t) i) (timers s)) as [t|] eqn:Fd.
    + destruct (find_id _ _ _ Fd) as [Hin Hid].
      pose proof (filter_nil_NoSave _ N t Hin) as S.
      assert (C : t_cb t = CbSetSaved)
        by (unfold is_save in S; destruct (t_cb t); [discriminate|reflexivity]).
      rewrite (fire_status_step iso i r s t Fd C F) in E.
      destruct (status_fired_frame i s) as (F1 & _ & _ & M1 & T1).
      assert (S1 : status (status_fired i s) = Saved)
        by (unfold status_fired; rewrite Hm; reflexivity).
      destruct (IH (status_fired i s)) as (A & B & D);
        [rewrite T1, filter_remove_timer, N; reflexivity
        |unfold FC; rewrite F1; exact F|rewrite M1; exact Hm|exact E|].
      split; [right; destruct A as [A|A]; congruence|].
      split; [intros; destruct A; congruence|].
      intros t' Ht' Nin. apply D.
      * rewrite T1. apply in_remove_timer. split; [exact Ht'|].
        intros Eq. apply Nin. left. congruence.
      * intros H'. apply Nin. right. exact H'.
    + assert (E' : fire_timers iso r s = Ok tt s').
      { rewrite <- E. cbn [fire_timers]. unfold bind at 1, gets. cbv beta. rewrite Fd.
        reflexivity. }
      destruct (IH s N F Hm E') as (A & B & D).
      split; [exact A|]. split.
      * intros t Ht [Ei|Ein]; [|exact (B t Ht Ein)].
        exfalso. exact (find_id_none _ _ _ Fd Ht (eq_sym Ei)).
      * intros t Ht Nin. apply D; [exact Ht|]. intros H'. apply Nin. right. exact H'.
Qed.

Lemma ticks_until_saved k s t0 :
  Inv s -> filter is_save (timers s) = [] -> mounted s = true ->
  (status s = Saved \/ (In t0 (timers s) /\ now s < t_due t0 <= now s + Z.of_nat k)) ->
  exists s', run iso (repeat Tick k) s = Ok tt s' /\ status s' = Saved.
Proof.
  revert s. induction k as [|k IH]; intros s I N Hm H.
  - exists s. split; [reflexivity|]. destruct H as [H|(_ & H)]; [exact H|]. lia.
  - destruct (tick_nosave iso s I N) as (s1 & E1 & I1 & N1 & _ & T1 & M1).
    pose proof I as ((_ & Nd) & _ & F).
    pose proof E1 as E1'. cbn [step] in E1'. rewrite tick_eq in E1'.
    destruct (fire_status _ (set_now (now s + 1) s) _ N F Hm E1') as (A & B & D).
    assert (H1 : status s1 = Saved \/
                 (In t0 (timers s1) /\ now s1 < t_due t0 <= now s1 + Z.of_nat k)).
    { destruct H as [H|(Hin & L)].
      - left. cbn in A. destruct A; congruence.
      - destruct (Z.eq_dec (t_due t0) (now s + 1)) as [Eq|Ne].
        + left. apply (B t0); [exact Hin|]. apply in_due_ids; [exact Nd|exact Hin|lia].
        + right. split.
          * apply D; [exact Hin|]. rewrite in_due_ids by assumption. lia.
          * rewrite T1. lia. }
    destruct (IH s1 I1 N1 (eq_trans M1 Hm) H1) as (s2 & E2 & S2).
    exists s2. cbn [repeat]. rewrite run_cons, E1, E2. auto.
Qed.

(** Extra: [STATUS_DELAY] ms (or more) after a manual save with free
    storage space the status is "saved": the save's
    [setTimeout(() => setStatus('saved'), STATUS_DELAY)] fires, and no
    auto-save is left to change it back. *)
Theorem manual_save_then_saved s n :
  reachable iso s -> mounted s = true -> quota_full s = false -> (500 <= n)%nat ->
  exists s', run iso (ManualSave :: repeat Tick n) s = Ok tt s' /\ status s' = Saved.
Proof.
  intros R Hm Hq Hn.
  destruct (manual_save_spec s (reachable_Inv iso s R) Hm Hq)
    as (s1 & E1 & I1 & _ & _ & _ & N1 & M1 & T1 & Hin).
  destruct (ticks_until_saved n s1 (mkTimer (next_id s) (now s + STATUS_DELAY) CbSetSaved)
              I1 (filter_nosave _ N1) M1) as (s2 & E2 & S2).
  { right. split; [exact Hin|]. cbn. rewrite T1. unfold STATUS_DELAY. lia. }
  exists s2. rewrite run_cons, E1, E2. auto.
Qed.

Lemma clear_fields s s' :
  mounted s = true -> step iso (Clear true) s = Ok tt s' ->
  form s' = doc_val empty_doc /\ lastSaved s' = JNull /\ status s' = Idle /\
  store s' = assoc_remove STORAGE_KEY (store s) /\ form_changed s' = false /\
  autosave_cleanup s' = false /\ mounted s' = true.
Proof.
  intros Hm E. rewrite (step_clear_eq iso s Hm) in E.
  match type of E with autosave_effect _ ?s0 = _ =>
    destruct (cleanup_run_ok s0) as [s1 E1] end.
  rewrite (autosave_effect_doc empty_doc _ _ E1) in E. injection E as <-.
  rewrite cleanup_run_eq in E1. injection E1 as <-.
  destruct (autosave_cleanup s) eqn:Ac, (saveTimerRef s); cbn; rewrite ?Ac;
    repeat split; auto.
Qed.

(** Extra: a confirmed clear on a mounted component empties the form,
    resets [lastSaved] to [null] and the status to "idle", removes the
    entry under [STORAGE_KEY] and only it, cancels the pending auto-save
    and writes nothing. *)
Theorem clear_resets s :
  reachable iso s -> mounted s = true ->
  exists s', step iso (Clear true) s = Ok tt s' /\
    form s' = doc_val empty_doc /\ lastSaved s' = JNull /\ status s' = Idle /\
    assoc_get STORAGE_KEY (store s') = None /\
    (forall k, k <> STORAGE_KEY -> assoc_get k (store s') = assoc_get k (store s)) /\
    filter is_save (timers s') = [] /\ setItem_calls s' = setItem_calls s.
Proof.
  intros R Hm.
  destruct (clear_nosave iso s (reachable_Inv iso s R) Hm) as (s' & E & _ & N & C).
  destruct (clear_fields s s' Hm E) as (Fo & L & St & Sto & _).
  exists s'. split; [exact E|]. split; [exact Fo|]. split; [exact L|]. split; [exact St|].
  rewrite Sto. split; [apply assoc_get_remove_same|]. split; [|split; assumption].
  intros k Hk. apply assoc_get_remove_other, Hk.
Qed.

(** Extra: a second confirmed clear right after a confirmed clear changes
    nothing. *)
Theorem clear_twice s s' :
  mounted s = true -> step iso (Clear true) s = Ok tt s' ->
  step iso (Clear true) s' = Ok tt s'.
Proof.
  intros Hm E. destruct (clear_fields s s' Hm E) as (Fo & L & St & Sto & Fc & Ac & M).
  rewrite (step_clear_eq iso s' M).
  rewrite (autosave_effect_doc empty_doc _ _ (cleanup_run_eq _)).
  destruct s' as [fo st ls sr str ac fc mo ts ni nw sto qf calls errs]; cbn in *.
  subst. cbn. rewrite assoc_remove_idem. reflexivity.
Qed.

Lemma mount_record_pending d ts st full :
  doc_empty d = false ->
  exists s, mount (assoc_set STORAGE_KEY
                     (JSON_stringify (JObj [("form", doc_val d); ("timestamp", JStr ts)])) st)
                  full = Ok tt s /\
            now s = 0 /\ setItem_calls s = [] /\ save_pending s (doc_val d) (now s + SAVE_DELAY).
Proof.
  destruct d as [ti co]. unfold doc_empty. cbn. intros Hd.
  unfold mount, load_effect, getItem, try_catch, bind, gets, ret; cbn.
  destruct (String.eqb ti "") eqn:Et, (String.eqb co "") eqn:Ec; try discriminate; cbn;
    repeat progress (cbn; rewrite ?render_title_content, ?Et, ?Ec);
    (eexists; split; [reflexivity|]); cbn;
    (split; [reflexivity|]); (split; [reflexivity|]); exists 2%nat; reflexivity.
Qed.

(** Extra: mounting over the record of a non-empty document (as
    [saveToLocalStorage] writes it) and waiting [SAVE_DELAY] ms or more
    writes the document back once, stamped [SAVE_DELAY] ms after the
    mount: the loaded [form] re-runs the auto-save effect. *)
Theorem reload_resaves d ts st full n :
  doc_empty d = false -> (2000 <= n)%nat ->
  exists s s', mount (assoc_set STORAGE_KEY
                        (JSON_stringify (JObj [("form", doc_val d); ("timestamp", JStr ts)]))
                        st) full = Ok tt s /\
               run iso (repeat Tick n) s = Ok tt s' /\
               setItem_calls s' = [saved_record iso (doc_val d) SAVE_DELAY].
Proof.
  intros Hd Hn. destruct (mount_record_pending d ts st full Hd) as (s & E & T & C & P).
  assert (I : Inv s) by (apply (reachable_Inv iso); eapply reach_mount; exact E).
  destruct (ticks_save iso n s _ I P Hn) as (s' & E' & _ & C' & _).
  exists s, s'. split; [exact E|]. split; [exact E'|]. rewrite C', C, T. reflexivity.
Qed.

End Extras.

(** * Runs on concrete inputs *)

(** A clock whose [toISOString] is fixed. *)
Definition clock (n : Z) : string := "2026-10-15T00:00:00.000Z".

Definition doc_A : document := mkDoc "A" "".
Definition doc_AB : document := mkDoc "AB" "".

(** The component mounted over an empty storage, with room to write. *)
Definition s_fresh : state := state_of (mount [] false).

(** The component mounted over an empty but full storage. *)
Definition s_full : state := state_of (mount [] true).

(** After typing "A" into the title of [s_fresh]. *)
Definition s_typed : state := state_of (step clock (Edit doc_A) s_fresh).

(** The record [saveToLocalStorage] writes for the empty form. *)
Definition empty_record : stext :=
  JSON_stringify (JObj [("form", doc_val empty_doc); ("timestamp", JStr "2026-10-15T00:00:00.000Z")]).

Lemma s_fresh_reachable : reachable clock s_fresh.
Proof. apply (reach_mount clock [] false). vm_compute. reflexivity. Qed.

Lemma s_full_reachable : reachable clock s_full.
Proof. apply (reach_mount clock [] true). vm_compute. reflexivity. Qed.

Lemma s_typed_reachable : reachable clock s_typed.
Proof.
  apply (reach_step clock s_fresh (Edit doc_A)); [exact s_fresh_reachable|].
  vm_compute. reflexivity.
Qed.

(** ** C1: the empty form is written *)

(** C1 (code evaluated): with the empty form, a manual save ([handleManualSave],
    which runs no emptiness test) calls [setItem] with the empty form and
    sets status "saving", then "saved" 500 ms later. Likewise a stored
    record holding the empty form is loaded with status "saved". *)
Theorem empty_form_saved :
  form s_fresh = doc_val empty_doc /\
  (exists s1 s2,
     step clock ManualSave s_fresh = Ok tt s1 /\
     status s1 = Saving /\ setItem_calls s1 = [(STORAGE_KEY, empty_record)] /\
     store s1 = [(STORAGE_KEY, empty_record)] /\
     run clock (repeat Tick 500) s1 = Ok tt s2 /\
     status s2 = Saved /\ form s2 = doc_val empty_doc) /\
  (exists s, mount [(STORAGE_KEY, empty_record)] false = Ok tt s /\
     form s = doc_val empty_doc /\ status s = Saved).
Proof.
  split; [vm_compute; reflexivity|]. split.
  - exists (state_of (step clock ManualSave s_fresh)),
      (state_of (run clock (repeat Tick 500) (state_of (step clock ManualSave s_fresh)))).
    vm_compute. repeat split.
  - eexists. split; [vm_compute; reflexivity|]. vm_compute. split; reflexivity.
Qed.

(** ** C4: the status timer outlives the unmount *)

(** C4 (code evaluated): type "A", save manually, unmount. The "saved"
    status timer armed by the save (id 2, due at 500 ms) is still pending:
    the unmount cleanup only clears [saveTimerRef]. At 500 ms it falls due
    and the browser runs its callback on the discarded component. *)
Theorem teardown_keeps_status_timer :
  exists s1 s2,
    run clock [Edit doc_A; ManualSave; Teardown] s_fresh = Ok tt s1 /\
    mounted s1 = false /\ statusTimerRef s1 = Some 2%nat /\
    timers s1 = [mkTimer 2 500 CbSetSaved] /\
    run clock (repeat Tick 499) s1 = Ok tt s2 /\
    timers s2 = [mkTimer 2 500 CbSetSaved] /\
    due_ids (now s2 + 1) (timers s2) = [2%nat].
Proof.
  exists (state_of (run clock [Edit doc_A; ManualSave; Teardown] s_fresh)),
    (state_of (run clock (repeat Tick 499)
       (state_of (run clock [Edit doc_A; ManualSave; Teardown] s_fresh)))).
  vm_compute. repeat split.
Qed.

(** ** C5: a confirmed clear leaves the status timer pending *)

(** C5 (code evaluated): type "A", save manually, clear (confirmed). The
    clear sets the empty form and status "idle" but leaves the "saved"
    status timer pending ([handleClear] clears no timer; the auto-save
    cleanup clears only [saveTimerRef]); 500 ms later the status is
    "saved" while the form is still empty. *)
Theorem clear_keeps_status_timer :
  exists s1 s2,
    run clock [Edit doc_A; ManualSave; Clear true] s_fresh = Ok tt s1 /\
    status s1 = Idle /\ form s1 = doc_val empty_doc /\ lastSaved s1 = JNull /\
    timers s1 = [mkTimer 2 500 CbSetSaved] /\
    run clock (repeat Tick 500) s1 = Ok tt s2 /\
    status s2 = Saved /\ form s2 = doc_val empty_doc.
Proof.
  exists (state_of (run clock [Edit doc_A; ManualSave; Clear true] s_fresh)),
    (state_of (run clock (repeat Tick 500)
       (state_of (run clock [Edit doc_A; ManualSave; Clear true] s_fresh)))).
  vm_compute. repeat split.
Qed.

(** ** C7: a stored value of the wrong shape *)

(** C7 (counterexample): the stored text ["{}"] parses, so the load adopts
    [data.form], here [undefined], and sets status "saved"; the re-render
    then reads [form.title] ([value={form.title}]) and throws a
    [TypeError]: the form is not empty and not idle, and an error escapes. *)
Lemma load_shapeless_record_throws :
  exists s, mount [(STORAGE_KEY, TJson (JObj []))] false = Exn "TypeError" s /\
            form s = JUndefined /\ status s = Saved.
Proof. eexists. split; [vm_compute; reflexivity|]. vm_compute. split; reflexivity. Qed.

(** ** Witnesses *)

Lemma debounce_single_write_witness :
  reachable clock s_fresh /\
  let T := now s_fresh + Z.of_nat (burst_time [(doc_A, 1000%nat)]) in
  (exists s', run clock (burst [(doc_A, 1000%nat)] ++ [Edit doc_AB]) s_fresh = Ok tt s' /\
              save_pending s' (doc_val doc_AB) (T + SAVE_DELAY)) /\
  (exists s', run clock (burst [(doc_A, 1000%nat)] ++ Edit doc_AB :: repeat Tick 2000) s_fresh
                = Ok tt s' /\
              setItem_calls s' =
                (setItem_calls s_fresh ++ [saved_record clock (doc_val doc_AB) (T + SAVE_DELAY)])%list) /\
  (exists s', run clock (burst [(doc_A, 1000%nat)] ++ Edit doc_AB :: repeat Tick 1999 ++
                         Teardown :: repeat Tick 2000) s_fresh = Ok tt s' /\
              setItem_calls s' = setItem_calls s_fresh).
Proof.
  split; [exact s_fresh_reachable|].
  apply (debounce_single_write clock s_fresh [(doc_A, 1000%nat)] doc_AB 2000 1999 2000 Teardown).
  - exact s_fresh_reachable.
  - vm_compute. reflexivity.
  - constructor; [|constructor]. unfold fast_edit. cbn. split; [reflexivity|lia].
  - reflexivity.
  - lia.
  - lia.
  - left. reflexivity.
Defined.

Lemma no_write_after_teardown_witness :
  mounted s_typed = true /\
  exists s', run clock (Teardown :: repeat Tick 2000) s_typed = Ok tt s' /\
             setItem_calls s' = setItem_calls s_typed /\ store s' = store s_typed.
Proof.
  split; [vm_compute; reflexivity|].
  apply (no_write_after_teardown clock s_typed (repeat Tick 2000)).
  - exact s_typed_reachable.
  - vm_compute. reflexivity.
Defined.

Lemma save_failure_sets_error_witness :
  quota_full s_full = true /\
  exists s', step clock ManualSave s_full = Ok tt s' /\
             status s' = Error /\ lastSaved s' = lastSaved s_full /\ store s' = store s_full /\
             next_id s' = next_id s_full /\ NoSave s'.
Proof.
  split; [vm_compute; reflexivity|].
  apply (save_failure_sets_error clock s_full).
  - exact s_full_reachable.
  - vm_compute. reflexivity.
  - vm_compute. reflexivity.
Defined.

Lemma load_stored_entry_witness :
  (exists s, mount [(STORAGE_KEY, TRaw "{oops")] false = Ok tt s /\
             form s = doc_val empty_doc /\ lastSaved s = JNull /\ status s = Idle /\
             timers s = [] /\ setItem_calls s = [] /\
             length (errors s) = (if loaded_text [(STORAGE_KEY, TRaw "{oops")] then 1 else 0)%nat) /\
  (exists s1, load_effect (initial_state [(STORAGE_KEY, TJson (JNum 5))] false) = Ok tt s1 /\
              form s1 = JUndefined /\ lastSaved s1 = JUndefined /\ status s1 = Saved /\
              errors s1 = [] /\ setItem_calls s1 = []) /\
  (exists s, mount [(STORAGE_KEY, TJson (JNum 5))] false = Exn "TypeError" s /\
             form s = JUndefined /\ status s = Saved /\
             filter is_save (timers s) = [] /\ setItem_calls s = []).
Proof.
  split.
  - apply (proj1 (load_stored_entry [(STORAGE_KEY, TRaw "{oops")] false)).
    right. left. exists "{oops". reflexivity.
  - destruct (proj2 (load_stored_entry [(STORAGE_KEY, TJson (JNum 5))] false)
                (JNum 5) JUndefined JUndefined eq_refl eq_refl eq_refl) as [A B].
    split; [exact A|]. apply B. left. reflexivity.
Defined.

Lemma reload_after_save_witness :
  form s_typed = doc_val doc_A /\
  exists s1, step clock ManualSave s_typed = Ok tt s1 /\
             lastSaved s1 = JStr (clock (now s_typed)) /\ status s1 = Saving /\
             exists s2, mount (store s1) (quota_full s1) = Ok tt s2 /\
                        form s2 = doc_val doc_A /\ lastSaved s2 = lastSaved s1 /\
                        status s2 = Unsaved.
Proof.
  split; [vm_compute; reflexivity|].
  apply (reload_after_save clock s_typed doc_A).
  - exact s_typed_reachable.
  - vm_compute. reflexivity.
  - vm_compute. reflexivity.
  - vm_compute. reflexivity.
  - reflexivity.
Defined.

Lemma edit_empty_keeps_status_witness :
  exists s', step clock (Edit empty_doc) s_typed = Ok tt s' /\
             status s' = status s_typed /\ next_id s' = next_id s_typed /\
             (forall t, In t (timers s') -> In t (timers s_typed)).
Proof. apply edit_empty_keeps_status. reflexivity. Defined.

Lemma clear_declined_noop_witness :
  step clock (Clear false) s_typed = Ok tt s_typed.
Proof. apply clear_declined_noop. exact s_typed_reachable. Defined.

(** A date parser that reads every timestamp as the epoch, and its
    [toLocaleString]. *)
Definition date_epoch (v : jsval) : option Z := Some 0.
Definition locale_epoch (z : Z) : string := "1/1/1970, 00:00:00".

Lemma word_count_sep_witness :
  is_ws 12288 = true /\
  word_count (code_units "one two" ++ 12288 :: code_units "three")%list =
    (word_count (code_units "one two") + word_count (code_units "three"))%nat.
Proof. split; [reflexivity|]. apply word_count_sep. reflexivity. Defined.

Lemma load_nonstring_content_crashes_witness :
  truthy (lookup_field "title" [("title", JStr "T")]) = true /\
  (forall x, lookup_field "content" [("title", JStr "T")] <> JStr x) /\
  exists s,
    mount [(STORAGE_KEY, TJson (JObj [("form", JObj [("title", JStr "T")]);
                                      ("timestamp", JStr "2026-10-15T00:00:00.000Z")]))]
          false = Exn "TypeError" s /\
    form s = JObj [("title", JStr "T")] /\ lastSaved s = JStr "2026-10-15T00:00:00.000Z" /\
    status s = Saved /\ filter is_save (timers s) = [] /\ setItem_calls s = [].
Proof.
  split; [reflexivity|]. split; [intros x; discriminate|].
  apply load_nonstring_content_crashes; [reflexivity|intros x; discriminate].
Defined.

Lemma formatTimestamp_ranges_witness :
  truthy (JStr "2026-10-15T00:00:00.000Z") = true /\
  (date_epoch (JStr "2026-10-15T00:00:00.000Z") = None ->
     formatTimestamp date_epoch 150000 locale_epoch (JStr "2026-10-15T00:00:00.000Z")
       = Some "Invalid Date") /\
  (forall date, date_epoch (JStr "2026-10-15T00:00:00.000Z") = Some date ->
     let diff := 150000 - date in
     (diff < 60000 -> formatTimestamp date_epoch 150000 locale_epoch
                        (JStr "2026-10-15T00:00:00.000Z") = Some "just now") /\
     (60000 <= diff < 120000 ->
        formatTimestamp date_epoch 150000 locale_epoch (JStr "2026-10-15T00:00:00.000Z")
          = Some "1 minute ago") /\
     (120000 <= diff < 3600000 ->
        2 <= diff / 60000 <= 59 /\
        formatTimestamp date_epoch 150000 locale_epoch (JStr "2026-10-15T00:00:00.000Z") =
          Some (string_of_Z (diff / 60000) ++ " minutes ago")) /\
     (3600000 <= diff -> formatTimestamp date_epoch 150000 locale_epoch
                           (JStr "2026-10-15T00:00:00.000Z") = Some (locale_epoch date))).
Proof. split; [reflexivity|]. apply formatTimestamp_ranges. reflexivity. Defined.

Lemma handleChange_is_edit_witness :
  form s_typed = doc_val (mkDoc "A" "") /\
  if_mounted (handleChange "title" "AB";; commit) s_typed =
    step clock (Edit (mkDoc "AB" (content (mkDoc "A" "")))) s_typed /\
  if_mounted (handleChange "content" "AB";; commit) s_typed =
    step clock (Edit (mkDoc (title (mkDoc "A" "")) "AB")) s_typed.
Proof.
  split; [vm_compute; reflexivity|]. apply handleChange_is_edit. vm_compute. reflexivity.
Defined.

Lemma at_most_one_pending_save_witness :
  reachable clock s_typed /\ (length (filter is_save (timers s_typed)) <= 1)%nat.
Proof.
  split; [exact s_typed_reachable|]. apply (at_most_one_pending_save clock).
  exact s_typed_reachable.
Defined.

Lemma edit_nonempty_unsaved_witness :
  mounted s_typed = true /\ doc_empty doc_AB = false /\
  exists s', step clock (Edit doc_AB) s_typed = Ok tt s' /\
             form s' = doc_val doc_AB /\ status s' = Unsaved /\
             lastSaved s' = lastSaved s_typed /\ store s' = store s_typed /\
             setItem_calls s' = setItem_calls s_typed /\
             save_pending s' (doc_val doc_AB) (now s_typed + SAVE_DELAY).
Proof.
  split; [vm_compute; reflexivity|]. split; [reflexivity|].
  apply edit_nonempty_unsaved.
  - exact s_typed_reachable.
  - vm_compute. reflexivity.
  - reflexivity.
Defined.

Lemma manual_save_writes_witness :
  mounted s_typed = true /\ quota_full s_typed = false /\
  exists s', step clock ManualSave s_typed = Ok tt s' /\
    status s' = Saving /\ lastSaved s' = JStr (clock (now s_typed)) /\
    assoc_get STORAGE_KEY (store s') =
      Some (JSON_stringify (JObj [("form", form s_typed);
                                  ("timestamp", JStr (clock (now s_typed)))])) /\
    (forall k, k <> STORAGE_KEY -> assoc_get k (store s') = assoc_get k (store s_typed)) /\
    filter is_save (timers s') = [].
Proof.
  split; [vm_compute; reflexivity|]. split; [vm_compute; reflexivity|].
  apply manual_save_writes.
  - exact s_typed_reachable.
  - vm_compute. reflexivity.
  - vm_compute. reflexivity.
Defined.

Lemma manual_save_then_saved_witness :
  mounted s_typed = true /\ quota_full s_typed = false /\
  exists s', run clock (ManualSave :: repeat Tick 500) s_typed = Ok tt s' /\
             status s' = Saved.
Proof.
  split; [vm_compute; reflexivity|]. split; [vm_compute; reflexivity|].
  apply manual_save_then_saved.
  - exact s_typed_reachable.
  - vm_compute. reflexivity.
  - vm_compute. reflexivity.
  - lia.
Defined.

Lemma clear_resets_witness :
  mounted s_typed = true /\
  exists s', step clock (Clear true) s_typed = Ok tt s' /\
    form s' = doc_val empty_doc /\ lastSaved s' = JNull /\ status s' = Idle /\
    assoc_get STORAGE_KEY (store s') = None /\
    (forall k, k <> STORAGE_KEY -> assoc_get k (store s') = assoc_get k (store s_typed)) /\
    filter is_save (timers s') = [] /\ setItem_calls s' = setItem_calls s_typed.
Proof.
  split; [vm_compute; reflexivity|]. apply clear_resets.
  - exact s_typed_reachable.
  - vm_compute. reflexivity.
Defined.

Lemma clear_twice_witness :
  mounted s_typed = true /\
  step clock (Clear true) s_typed = Ok tt (state_of (step clock (Clear true) s_typed)) /\
  step clock (Clear true) (state_of (step clock (Clear true) s_typed)) =
    Ok tt (state_of (step clock (Clear true) s_typed)).
Proof.
  split; [vm_compute; reflexivity|]. split; [vm_compute; reflexivity|].
  apply (clear_twice clock s_typed); vm_compute; reflexivity.
Defined.

Lemma reload_resaves_witness :
  doc_empty doc_A = false /\ (2000 <= 2000)%nat /\
  exists s s', mount (assoc_set STORAGE_KEY
                        (JSON_stringify (JObj [("form", doc_val doc_A);
                                               ("timestamp", JStr "2026-10-15T00:00:00.000Z")]))
                        []) false = Ok tt s /\
               run clock (repeat Tick 2000) s = Ok tt s' /\
               setItem_calls s' = [saved_record clock (doc_val doc_A) SAVE_DELAY].
Proof.
  split; [reflexivity|]. split; [lia|]. apply reload_resaves; [reflexivity|lia].
Defined.
